(** * sop_planner: the coil-coating line scheduler

    A shallow embedding of [src/sop_planner.py]: the schedule builder
    [calculate_schedule], the two ordering policies and the changeover
    metrics computed from the two schedules.

    Conventions of the embedding.
    - Numbers that the script handles as Python numbers (tons, millimetres,
      minutes) are exact rationals [Q]; binary floating point is not
      modelled.
    - The builder is given twice.  The first embedding keeps line time
      exact: a [datetime] is the number of minutes elapsed since
      2026-01-10T00:00 and [start + timedelta(minutes=m)] is [start + m].
      It carries the facts about the order, the kind and the number of the
      blocks, which do not depend on the clock.  The module [Clock] follows
      the [datetime] library: times are whole microseconds, a [timedelta]
      is rounded to the microsecond, and a value out of range raises
      [OverflowError].  It carries the facts about the length of a block
      and about the failures of the builder.
    - Strings are byte strings holding the UTF-8 encoding of the Python text;
      byte-wise lexicographic order coincides with code-point order.
    - A Python exception is a [Raise] result. *)

From Stdlib Require Import List String Ascii Bool ZArith QArith Lia.
From Stdlib Require Import Permutation Sorted.
From Stdlib Require OrderedTypeEx.
Import ListNotations.

Open Scope string_scope.
Open Scope Z_scope.

(** ** Exceptions and results *)

Inductive exn : Type :=
| ZeroDivisionError
| OverflowError
| KeyError (key : string).

Inductive result (A : Type) : Type :=
| Ok (a : A)
| Raise (e : exn).

Arguments Ok {A} a.
Arguments Raise {A} e.

Definition bind {A B : Type} (r : result A) (k : A -> result B) : result B :=
  match r with
  | Ok a => k a
  | Raise e => Raise e
  end.

Notation "x <- r ;; k" := (bind r (fun x => k))
  (at level 61, r at next level, right associativity).

(** Python's true division [a / b] of two integers: a zero divisor
    faults. *)
Definition true_div (a b : Z) : result Q :=
  if b =? 0 then Raise ZeroDivisionError
  else Ok (inject_Z a / inject_Z b)%Q.

(** ** Orders: one row of the input table *)

Record Order : Type := mkOrder {
  order_id : string;   (* column 주문번호 *)
  customer : string;   (* column 고객사 *)
  color : string;      (* column 강종/색상 *)
  quantity : Q;        (* column 주문량(톤) *)
  width : Q            (* column 폭(mm) *)
}.

Definition default_data : list Order :=
  [ mkOrder "ORD-101" "LG전자" "White" 100 1200;
    mkOrder "ORD-102" "삼성전자" "Blue" 50 1000;
    mkOrder "ORD-103" "현대차" "White" 80 1200;
    mkOrder "ORD-104" "기아" "Red" 40 900;
    mkOrder "ORD-105" "포스코E&C" "Blue" 60 1000;
    mkOrder "ORD-106" "LG하우시스" "White" 120 1200;
    mkOrder "ORD-107" "삼성물산" "Red" 30 900;
    mkOrder "ORD-108" "KG모빌리티" "Blue" 50 1000 ].

(** ** Schedule blocks

    The loop appends two shapes of dictionary; a constructor records which
    [append] produced the row, and the columns of the row are functions of
    it. *)

Definition datetime : Type := Q.

Inductive Block : Type :=
| Changeover (start finish : datetime) (from_color to_color : string)
| Production (row : Order) (start finish : datetime).

(* column 작업명 *)
Definition label (b : Block) : string :=
  match b with
  | Changeover _ _ _ _ => "Changeover (교체)"
  | Production row _ _ => order_id row ++ " (" ++ color row ++ ")"
  end.

(* column 색상 *)
Definition display_color (b : Block) : string :=
  match b with
  | Changeover _ _ _ _ => "Setup (Loss)"
  | Production row _ _ => color row
  end.

(* column 시작 *)
Definition start (b : Block) : datetime :=
  match b with
  | Changeover s _ _ _ => s
  | Production _ s _ => s
  end.

(* column 종료 *)
Definition finish (b : Block) : datetime :=
  match b with
  | Changeover _ e _ _ => e
  | Production _ _ e => e
  end.

Definition is_changeover_block (b : Block) : bool :=
  match b with
  | Changeover _ _ _ _ => true
  | Production _ _ _ => false
  end.

Definition is_production_block (b : Block) : bool :=
  negb (is_changeover_block b).

(** Duration of a block in minutes: [종료 - 시작]. *)
Definition duration (b : Block) : Q := (finish b - start b)%Q.

(** ** Data frames of blocks

    [pd.DataFrame(schedule_list)] takes its columns from the keys of the row
    dictionaries: built from an empty list it has no column at all. *)

Record DataFrame : Type := mkFrame {
  columns : list string;
  rows : list Block
}.

Definition block_columns : list string :=
  ["작업명"; "색상"; "시작"; "종료"; "상세"].

Definition pd_DataFrame (schedule_list : list Block) : DataFrame :=
  {| columns := match schedule_list with
                | [] => []
                | _ :: _ => block_columns
                end;
     rows := schedule_list |}.

(** [df[key]]: the column, given by the rows that carry it; a missing column
    raises [KeyError]. *)
Definition getitem (df : DataFrame) (key : string) : result (list Block) :=
  if existsb (String.eqb key) (columns df) then Ok (rows df)
  else Raise (KeyError key).

(** ** The grouped-order policy

    [df.sort_values(by=['강종/색상', '폭(mm)'], ascending=[True, False])]:
    a stable sort on the composite key, colour ascending and then width
    descending. *)

Definition key_le (a b : Order) : bool :=
  match String.compare (color a) (color b) with
  | Lt => true
  | Eq => Qle_bool (width b) (width a)
  | Gt => false
  end.

Definition key_eq (a b : Order) : bool :=
  String.eqb (color a) (color b) && Qeq_bool (width a) (width b).

Fixpoint insert_row (x : Order) (l : list Order) : list Order :=
  match l with
  | [] => [x]
  | y :: l' => if key_le x y then x :: l else y :: insert_row x l'
  end.

Definition sort_values (df : list Order) : list Order :=
  fold_right insert_row [] df.

(** The order of the composite key, as a relation. *)
Definition key_order (a b : Order) : Prop := key_le a b = true.

(** ** The schedule builder *)

(* datetime(2026, 1, 10, 8, 0) *)
Definition day_start : datetime := 480%Q.

Record LoopState : Type := mkState {
  start_time : datetime;
  schedule_list : list Block;
  last_color : option string
}.

Section Engine.

(** The two sidebar controls, read as globals by the builder:
    [line_speed] is the slider (an integer) and [setup_time] the number
    input (an integer, not bounded by the control). *)
Variables line_speed setup_time : Z.

(** [(row['주문량(톤)'] / line_speed) * 60] *)
Definition production_minutes (row : Order) : result Q :=
  if line_speed =? 0 then Raise ZeroDivisionError
  else Ok (quantity row / inject_Z line_speed * 60)%Q.

(** One turn of the [for idx, row in schedule.iterrows()] loop. *)
Definition loop_body (st : LoopState) (row : Order) : result LoopState :=
  let is_changeover :=
    match last_color st with
    | Some c => negb (String.eqb (color row) c)
    | None => false
    end in
  let current_setup := if is_changeover then setup_time else 0 in
  let st1 :=
    if is_changeover then
      let from := match last_color st with Some c => c | None => "None" end in
      {| start_time := (start_time st + inject_Z current_setup)%Q;
         schedule_list :=
           schedule_list st ++
           [Changeover (start_time st)
                       (start_time st + inject_Z current_setup)%Q
                       from (color row)];
         last_color := last_color st |}
    else st in
  production_minutes <- production_minutes row ;;
  let end_time := (start_time st1 + production_minutes)%Q in
  Ok {| start_time := end_time;
        schedule_list :=
          schedule_list st1 ++ [Production row (start_time st1) end_time];
        last_color := Some (color row) |}.

Fixpoint iterrows (schedule : list Order) (st : LoopState)
  : result LoopState :=
  match schedule with
  | [] => Ok st
  | row :: rest => st' <- loop_body st row ;; iterrows rest st'
  end.

Definition calculate_schedule (df : list Order) (is_optimized : bool)
  : result DataFrame :=
  let schedule := if is_optimized then sort_values df else df in
  st <- iterrows schedule
          {| start_time := day_start; schedule_list := []; last_color := None |} ;;
  Ok (pd_DataFrame (schedule_list st)).

(** ** The comparison metrics *)

(** [df[df['작업명'] == 'Changeover (교체)']['종료'].count() * setup_time] *)
Definition changeover_loss (df : DataFrame) : result Z :=
  names <- getitem df "작업명" ;;
  let selected :=
    filter (fun b => String.eqb (label b) "Changeover (교체)") names in
  Ok (Z.of_nat (List.length selected) * setup_time).

(** The value bound to [loss_asis]: the loss of the submission-order run. *)
Definition submission_loss (df_raw : list Order) : result Z :=
  df_asis <- calculate_schedule df_raw false ;;
  changeover_loss df_asis.

Record Summary : Type := mkSummary {
  loss_asis : Z;
  loss_tobe : Z;
  time_saved : Z;
  efficiency : Q   (* the percentage shown by the third metric *)
}.

Definition simulate (df_raw : list Order) : result Summary :=
  df_asis <- calculate_schedule df_raw false ;;
  df_tobe <- calculate_schedule df_raw true ;;
  loss_asis <- changeover_loss df_asis ;;
  loss_tobe <- changeover_loss df_tobe ;;
  let time_saved := loss_asis - loss_tobe in
  ratio <- true_div time_saved (if 0 <? loss_asis then loss_asis else 1) ;;
  Ok {| loss_asis := loss_asis;
        loss_tobe := loss_tobe;
        time_saved := time_saved;
        efficiency := (ratio * 100)%Q |}.

End Engine.

(** The number of Changeover blocks of a schedule. *)
Definition changeover_count (sched : list Block) : nat :=
  List.length (filter is_changeover_block sched).

(** The rows behind the Production blocks, in schedule order. *)
Fixpoint production_rows (sched : list Block) : list Order :=
  match sched with
  | [] => []
  | Production row _ _ :: rest => row :: production_rows rest
  | Changeover _ _ _ _ :: rest => production_rows rest
  end.

(** A schedule is contiguous when each block ends where the next starts. *)
Definition contiguous (sched : list Block) : Prop :=
  forall i b b',
    nth_error sched i = Some b ->
    nth_error sched (S i) = Some b' ->
    finish b = start b'.

(** [chained t sched]: the schedule starts at [t] and has no gap. *)
Fixpoint chained (t : datetime) (sched : list Block) : Prop :=
  match sched with
  | [] => True
  | b :: rest => start b = t /\ chained (finish b) rest
  end.

(** The working sequence of orders under a policy. *)
Definition ordered (df : list Order) (is_optimized : bool) : list Order :=
  if is_optimized then sort_values df else df.


(** ** Counting colour changes *)

(** Adjacent pairs of a colour sequence whose two colours differ. *)
Fixpoint jumps (cs : list string) : nat :=
  match cs with
  | [] => 0%nat
  | a :: tl =>
      match tl with
      | [] => 0%nat
      | b :: _ => ((if String.eqb b a then 0 else 1) + jumps tl)%nat
      end
  end.

(** The colour sequence seen by the loop: the colour carried in
    [last_color], if any, followed by the colours of the rows to come. *)
Definition colors_from (last : option string) (rows : list Order)
  : list string :=
  match last with
  | Some c => c :: map color rows
  | None => map color rows
  end.

(** Rows selected by the comparison [df['작업명'] == 'Changeover (교체)']. *)
Definition named_changeover (b : Block) : bool :=
  String.eqb (label b) "Changeover (교체)".

(** Orders whose own Production label reads as the Changeover label. *)
Definition homonym (row : Order) : bool :=
  String.eqb (order_id row ++ " (" ++ color row ++ ")") "Changeover (교체)".

(** Number of different colours in a sequence. *)
Definition distinct (cs : list string) : nat :=
  List.length (nodup string_dec cs).

(** Non-strict order on colour tags. *)
Definition color_le (a b : string) : Prop := String.compare a b <> Gt.

(** Total changeover time of a schedule: Changeover blocks times the fixed
    changeover duration. *)
Definition total_changeover (setup_time : Z) (sched : list Block) : Z :=
  Z.of_nat (changeover_count sched) * setup_time.

(** ** Neighbours inside a schedule *)

Fixpoint last_opt {A : Type} (l : list A) : option A :=
  match l with
  | [] => None
  | a :: rest =>
      match last_opt rest with
      | Some b => Some b
      | None => Some a
      end
  end.

(** Whether the prefix [pre] of a schedule ends with a Changeover block. *)
Definition ends_with_changeover (pre : list Block) : bool :=
  match last_opt pre with
  | Some b => is_changeover_block b
  | None => false
  end.

(** The colour of the last Production block of [pre], or [last] when [pre]
    holds none. *)
Definition previous_color (last : option string) (pre : list Block)
  : option string :=
  match last_opt (production_rows pre) with
  | Some row => Some (color row)
  | None => last
  end.

(** Minutes spent in the Changeover blocks of a schedule. *)
Definition changeover_minutes (sched : list Block) : Q :=
  fold_right Qplus 0%Q (map duration (filter is_changeover_block sched)).

(** ** The loop, unrolled *)

Section Unrolled.

Variables line_speed setup_time : Z.

(** The blocks that the loop appends when it runs over [rows] from the
    cursor [t] with [last] as the colour of the previous row. *)
Fixpoint emit (t : datetime) (last : option string) (rows : list Order)
  : list Block :=
  match rows with
  | [] => []
  | row :: rest =>
      let pm := (quantity row / inject_Z line_speed * 60)%Q in
      match last with
      | Some c =>
          if String.eqb (color row) c then
            Production row t (t + pm)%Q
              :: emit (t + pm)%Q (Some (color row)) rest
          else
            let t1 := (t + inject_Z setup_time)%Q in
            Changeover t t1 c (color row)
              :: Production row t1 (t1 + pm)%Q
              :: emit (t1 + pm)%Q (Some (color row)) rest
      | None =>
          Production row t (t + pm)%Q
            :: emit (t + pm)%Q (Some (color row)) rest
      end
  end.

(** How long the emitted blocks last. *)
Definition timed (rows : list Order) (b : Block) : Prop :=
  match b with
  | Changeover s e _ _ => (e - s == inject_Z setup_time)%Q
  | Production row s e =>
      In row rows /\ (e - s == quantity row / inject_Z line_speed * 60)%Q
  end.

(** The loss that the label comparison yields for a working sequence. *)
Definition named_loss (rows : list Order) : Z :=
  Z.of_nat (jumps (map color rows) + List.length (filter homonym rows))
  * setup_time.

End Unrolled.

(** ** Line time *)

(** Minutes of production that a sequence of orders needs on the line. *)
Definition production_total (line_speed : Z) (rows : list Order) : Q :=
  fold_right Qplus 0%Q
    (map (fun row => (quantity row / inject_Z line_speed * 60)%Q) rows).

(** * The builder on Python's clock

    The definitions above keep line time exact.  This module follows the
    two types of the [datetime] library that the builder computes with:
    a [timedelta] is a whole number of microseconds, at most 999999999
    days either way, and a [datetime] is a date between 0001-01-01 and
    9999-12-31, counted here in microseconds since 0001-01-01T00:00.
    A value outside either range raises [OverflowError].  The quotient
    [quantity / line_speed * 60] is still taken exactly. *)

Module Clock.

Definition us_per_minute : Z := 60000000.
Definition us_per_day : Z := 86400000000.

(** Rounding to the nearest integer, a tie going to the even one. *)
Definition round_half_even (q : Q) : Z :=
  let d := Zpos (Qden q) in
  let f := Qnum q / d in
  match 2 * (Qnum q mod d) ?= d with
  | Lt => f
  | Gt => f + 1
  | Eq => if Z.even f then f else f + 1
  end.

Definition timedelta : Type := Z.

(** A [timedelta] is kept as days, seconds and microseconds, the days
    between -999999999 and 999999999. *)
Definition timedelta_of_us (us : Z) : result timedelta :=
  if (-999999999 <=? us / us_per_day) && (us / us_per_day <=? 999999999)
  then Ok us
  else Raise OverflowError.

(** [timedelta(minutes=m)] for an integer [m]. *)
Definition timedelta_of_int_minutes (m : Z) : result timedelta :=
  timedelta_of_us (m * us_per_minute).

(** [timedelta(minutes=m)] for a float [m]: rounded to the microsecond. *)
Definition timedelta_of_minutes (m : Q) : result timedelta :=
  timedelta_of_us (round_half_even (m * inject_Z us_per_minute)).

Definition datetime : Type := Z.

(* datetime.max, 9999-12-31T23:59:59.999999 *)
Definition datetime_max : datetime := 315537897599999999.

(** [t + d] for a [datetime] and a [timedelta]. *)
Definition datetime_add (t : datetime) (d : timedelta) : result datetime :=
  if (0 <=? t + d) && (t + d <=? datetime_max) then Ok (t + d)
  else Raise OverflowError.

(* datetime(2026, 1, 10, 8, 0) *)
Definition day_start : datetime := 63903628800000000.

Inductive Block : Type :=
| Changeover (start finish : datetime) (from_color to_color : string)
| Production (row : Order) (start finish : datetime).

(* column 작업명 *)
Definition label (b : Block) : string :=
  match b with
  | Changeover _ _ _ _ => "Changeover (교체)"
  | Production row _ _ => order_id row ++ " (" ++ color row ++ ")"
  end.

(* column 시작 *)
Definition start (b : Block) : datetime :=
  match b with
  | Changeover s _ _ _ => s
  | Production _ s _ => s
  end.

(* column 종료 *)
Definition finish (b : Block) : datetime :=
  match b with
  | Changeover _ e _ _ => e
  | Production _ _ e => e
  end.

Definition is_changeover_block (b : Block) : bool :=
  match b with
  | Changeover _ _ _ _ => true
  | Production _ _ _ => false
  end.

Definition changeover_count (sched : list Block) : nat :=
  List.length (filter is_changeover_block sched).

Fixpoint production_rows (sched : list Block) : list Order :=
  match sched with
  | [] => []
  | Production row _ _ :: rest => row :: production_rows rest
  | Changeover _ _ _ _ :: rest => production_rows rest
  end.

Record DataFrame : Type := mkFrame {
  columns : list string;
  rows : list Block
}.

Definition pd_DataFrame (schedule_list : list Block) : DataFrame :=
  {| columns := match schedule_list with
                | [] => []
                | _ :: _ => block_columns
                end;
     rows := schedule_list |}.

Record LoopState : Type := mkState {
  start_time : datetime;
  schedule_list : list Block;
  last_color : option string
}.

Section Engine.

Variables line_speed setup_time : Z.

(** One turn of the loop: the Changeover block, if the colour changes,
    needs a [timedelta] and a sum that may overflow; then the division,
    the [timedelta] of the production minutes and the sum for the end
    time. *)
Definition loop_body (st : LoopState) (row : Order) : result LoopState :=
  let is_changeover :=
    match last_color st with
    | Some c => negb (String.eqb (color row) c)
    | None => false
    end in
  let current_setup := if is_changeover then setup_time else 0 in
  st1 <-
    (if is_changeover then
       let from := match last_color st with Some c => c | None => "None" end in
       d <- timedelta_of_int_minutes current_setup ;;
       t1 <- datetime_add (start_time st) d ;;
       Ok {| start_time := t1;
             schedule_list :=
               (schedule_list st
                ++ [Changeover (start_time st) t1 from (color row)])%list;
             last_color := last_color st |}
     else Ok st) ;;
  production_minutes <- production_minutes line_speed row ;;
  d <- timedelta_of_minutes production_minutes ;;
  end_time <- datetime_add (start_time st1) d ;;
  Ok {| start_time := end_time;
        schedule_list :=
          (schedule_list st1
           ++ [Production row (start_time st1) end_time])%list;
        last_color := Some (color row) |}.

Fixpoint iterrows (schedule : list Order) (st : LoopState)
  : result LoopState :=
  match schedule with
  | [] => Ok st
  | row :: rest => st' <- loop_body st row ;; iterrows rest st'
  end.

Definition calculate_schedule (df : list Order) (is_optimized : bool)
  : result DataFrame :=
  let schedule := if is_optimized then sort_values df else df in
  st <- iterrows schedule
          {| start_time := day_start; schedule_list := []; last_color := None |} ;;
  Ok (pd_DataFrame (schedule_list st)).

(** The production time of a row in microseconds, before rounding. *)
Definition exact_us (row : Order) : Q :=
  (quantity row / inject_Z line_speed * 60 * inject_Z us_per_minute)%Q.

(** Microseconds of the Production block of a row, and of a Changeover
    block. *)
Definition production_us (row : Order) : Z :=
  round_half_even (exact_us row).

Definition setup_us : Z := setup_time * us_per_minute.

(** The blocks that the loop appends when no sum overflows. *)
Fixpoint emit (t : datetime) (last : option string) (rows : list Order)
  : list Block :=
  match rows with
  | [] => []
  | row :: rest =>
      match last with
      | Some c =>
          if String.eqb (color row) c then
            Production row t (t + production_us row)
              :: emit (t + production_us row) (Some (color row)) rest
          else
            Changeover t (t + setup_us) c (color row)
              :: Production row (t + setup_us)
                   (t + setup_us + production_us row)
              :: emit (t + setup_us + production_us row)
                   (Some (color row)) rest
      | None =>
          Production row t (t + production_us row)
            :: emit (t + production_us row) (Some (color row)) rest
      end
  end.

(** Line time that a table can take at most, each block counted with
    the absolute value of its length and a changeover before each row. *)
Definition span (rows : list Order) : Z :=
  fold_right (fun row acc => Z.abs (production_us row) + Z.abs setup_us + acc)
    0 rows.

(** Microseconds of production that a table needs on the line. *)
Definition worked_us (rows : list Order) : Z :=
  fold_right (fun row acc => production_us row + acc) 0 rows.

End Engine.

End Clock.

(** * Facts about the builder *)

Section BuilderFacts.

Variables line_speed setup_time : Z.

Local Abbreviation loop_body := (loop_body line_speed setup_time).
Local Abbreviation iterrows := (iterrows line_speed setup_time).
Local Abbreviation calculate_schedule := (calculate_schedule line_speed setup_time).
Local Abbreviation emit := (emit line_speed setup_time).

Lemma production_minutes_ok row :
  line_speed <> 0 ->
  production_minutes line_speed row
  = Ok (quantity row / inject_Z line_speed * 60)%Q.
Proof.
  intros Hs. unfold production_minutes.
  destruct (Z.eqb_spec line_speed 0); [contradiction | reflexivity].
Qed.

(** With a non-zero line speed the loop runs to its end and appends
    exactly the blocks of [emit]. *)
Lemma iterrows_emit rows :
  line_speed <> 0 ->
  forall st, exists st',
    iterrows rows st = Ok st' /\
    schedule_list st'
    = (schedule_list st ++ emit (start_time st) (last_color st) rows)%list.
Proof.
  intros Hs. induction rows as [|row rest IH]; intros st; simpl.
  - exists st. split; [reflexivity | now rewrite app_nil_r].
  - unfold loop_body. rewrite (production_minutes_ok row Hs). simpl.
    destruct (last_color st) as [c|] eqn:Hc; simpl.
    + destruct (String.eqb (color row) c) eqn:Hcol; simpl.
      * match goal with |- context [iterrows rest ?s] =>
          destruct (IH s) as (st' & Hrun & Hlist) end.
        exists st'. split; [exact Hrun|].
        rewrite Hlist. simpl. now rewrite <- app_assoc.
      * match goal with |- context [iterrows rest ?s] =>
          destruct (IH s) as (st' & Hrun & Hlist) end.
        exists st'. split; [exact Hrun|].
        rewrite Hlist. simpl. now rewrite <- !app_assoc.
    + match goal with |- context [iterrows rest ?s] =>
        destruct (IH s) as (st' & Hrun & Hlist) end.
      exists st'. split; [exact Hrun|].
      rewrite Hlist. simpl. now rewrite <- app_assoc.
Qed.

Lemma calculate_schedule_emit df is_optimized :
  line_speed <> 0 ->
  calculate_schedule df is_optimized
  = Ok (pd_DataFrame (emit day_start None (ordered df is_optimized))).
Proof.
  intros Hs. unfold calculate_schedule.
  fold (ordered df is_optimized).
  destruct (iterrows_emit (ordered df is_optimized) Hs
              {| start_time := day_start; schedule_list := [];
                 last_color := None |}) as (st' & Hrun & Hlist).
  rewrite Hrun. simpl in *. now rewrite Hlist.
Qed.

(** With a zero line speed the first row already faults. *)
Lemma iterrows_zero_speed row rest st :
  line_speed = 0 ->
  iterrows (row :: rest) st = Raise ZeroDivisionError.
Proof.
  intros Hs. simpl. unfold loop_body, production_minutes.
  rewrite Hs. reflexivity.
Qed.

Lemma emit_chained rows :
  forall t last, chained t (emit t last rows).
Proof.
  induction rows as [|row rest IH]; intros t last; simpl; [exact I|].
  destruct last as [c|]; [destruct (String.eqb (color row) c)|];
    simpl; repeat split; apply IH.
Qed.

Lemma chained_contiguous sched :
  forall t, chained t sched -> contiguous sched.
Proof.
  induction sched as [|b rest IH]; intros t Hch i b1 b2 H1 H2.
  - destruct i; discriminate.
  - destruct Hch as [_ Hrest]. destruct i as [|i]; simpl in H1, H2.
    + injection H1 as <-. destruct rest as [|b' rest']; [discriminate|].
      injection H2 as <-. destruct Hrest as [Hst _]. now rewrite Hst.
    + exact (IH _ Hrest i b1 b2 H1 H2).
Qed.

End BuilderFacts.

(** * Facts about the grouped-order policy *)

Module Grouping.

Lemma compare_refl (s : string) : String.compare s s = Eq.
Proof.
  pose proof (String.compare_antisym s s) as H.
  destruct (String.compare s s); simpl in H; congruence.
Qed.

Lemma compare_lt_trans (a b c : string) :
  String.compare a b = Lt -> String.compare b c = Lt ->
  String.compare a c = Lt.
Proof.
  intros Hab Hbc.
  apply OrderedTypeEx.String_as_OT.cmp_lt.
  apply OrderedTypeEx.String_as_OT.lt_trans with b;
    now apply OrderedTypeEx.String_as_OT.cmp_lt.
Qed.

Lemma key_le_total (a b : Order) : key_le a b = false -> key_le b a = true.
Proof.
  unfold key_le.
  pose proof (String.compare_antisym (color b) (color a)) as Hanti.
  destruct (String.compare (color a) (color b)) eqn:Hc;
    simpl in Hanti; rewrite Hanti; intros H.
  - apply Qle_bool_iff.
    destruct (Qlt_le_dec (width a) (width b)) as [Hlt|Hle].
    + now apply Qlt_le_weak.
    + apply Qle_bool_iff in Hle. congruence.
  - discriminate.
  - reflexivity.
Qed.

Lemma key_le_trans (a b c : Order) :
  key_le a b = true -> key_le b c = true -> key_le a c = true.
Proof.
  unfold key_le.
  destruct (String.compare (color a) (color b)) eqn:Hab; try discriminate;
    destruct (String.compare (color b) (color c)) eqn:Hbc; try discriminate;
    intros H1 H2.
  - apply String.compare_eq_iff in Hab. rewrite Hab, Hbc.
    apply Qle_bool_iff. apply Qle_bool_iff in H1, H2.
    now apply Qle_trans with (width b).
  - apply String.compare_eq_iff in Hab. now rewrite Hab, Hbc.
  - apply String.compare_eq_iff in Hbc. now rewrite <- Hbc, Hab.
  - now rewrite (compare_lt_trans _ _ _ Hab Hbc).
Qed.

Lemma key_eq_le (a b : Order) : key_eq a b = true -> key_le a b = true.
Proof.
  unfold key_eq, key_le. intros H.
  apply andb_true_iff in H as [Hc Hw].
  apply String.eqb_eq in Hc. rewrite Hc, compare_refl.
  apply Qeq_bool_iff in Hw. apply Qle_bool_iff.
  rewrite Hw. apply Qle_refl.
Qed.

Lemma key_eq_trans_l (k a b : Order) :
  key_eq k a = true -> key_eq k b = true -> key_eq a b = true.
Proof.
  unfold key_eq. intros Ha Hb.
  apply andb_true_iff in Ha as [Hca Hwa].
  apply andb_true_iff in Hb as [Hcb Hwb].
  apply String.eqb_eq in Hca, Hcb. apply Qeq_bool_iff in Hwa, Hwb.
  apply andb_true_iff. split.
  - apply String.eqb_eq. congruence.
  - apply Qeq_bool_iff. now rewrite <- Hwa, <- Hwb.
Qed.

Lemma insert_row_perm (x : Order) (l : list Order) :
  Permutation (insert_row x l) (x :: l).
Proof.
  induction l as [|y l IH]; simpl.
  - apply Permutation_refl.
  - destruct (key_le x y).
    + apply Permutation_refl.
    + apply perm_trans with (y :: x :: l).
      * now apply perm_skip.
      * apply perm_swap.
Qed.

Lemma sort_values_perm (df : list Order) : Permutation (sort_values df) df.
Proof.
  induction df as [|x df IH]; simpl.
  - apply perm_nil.
  - apply perm_trans with (x :: sort_values df).
    + apply insert_row_perm.
    + now apply perm_skip.
Qed.

Lemma insert_row_sorted (x : Order) (l : list Order) :
  Sorted key_order l -> Sorted key_order (insert_row x l).
Proof.
  induction 1 as [|y l Hl IH Hhd]; simpl.
  - repeat constructor.
  - destruct (key_le x y) eqn:Hxy.
    + constructor; [now constructor | now constructor].
    + constructor; [exact IH|].
      apply key_le_total in Hxy.
      destruct l as [|z l]; simpl.
      * now constructor.
      * destruct (key_le x z); constructor; [exact Hxy|].
        now inversion Hhd.
Qed.

Lemma sort_values_sorted (df : list Order) : Sorted key_order (sort_values df).
Proof.
  induction df as [|x df IH]; simpl.
  - constructor.
  - now apply insert_row_sorted.
Qed.

Lemma sort_values_strongly_sorted (df : list Order) :
  StronglySorted key_order (sort_values df).
Proof.
  apply Sorted_StronglySorted.
  - intros a b c. apply key_le_trans.
  - apply sort_values_sorted.
Qed.

(** Inserting a row leaves every class of equal keys in place and puts the
    new row at the front of its own class. *)
Lemma filter_insert_row (k x : Order) (l : list Order) :
  filter (key_eq k) (insert_row x l)
  = if key_eq k x then x :: filter (key_eq k) l else filter (key_eq k) l.
Proof.
  induction l as [|y l IH]; simpl.
  - reflexivity.
  - destruct (key_le x y) eqn:Hxy; simpl.
    + reflexivity.
    + rewrite IH.
      destruct (key_eq k x) eqn:Hkx, (key_eq k y) eqn:Hky; try reflexivity.
      pose proof (key_eq_le _ _ (key_eq_trans_l _ _ _ Hkx Hky)). congruence.
Qed.

Lemma sort_values_stable (k : Order) (df : list Order) :
  filter (key_eq k) (sort_values df) = filter (key_eq k) df.
Proof.
  induction df as [|x df IH]; simpl.
  - reflexivity.
  - rewrite filter_insert_row, IH. reflexivity.
Qed.

Lemma sort_values_sorted_id (l : list Order) :
  Sorted key_order l -> sort_values l = l.
Proof.
  induction 1 as [|x l Hl IH Hhd]; simpl.
  - reflexivity.
  - rewrite IH. destruct Hhd as [|y l Hxy]; simpl.
    + reflexivity.
    + unfold key_order in Hxy. now rewrite Hxy.
Qed.

Lemma key_eq_refl (a : Order) : key_eq a a = true.
Proof.
  unfold key_eq. now rewrite String.eqb_refl, Qeq_bool_refl.
Qed.

Lemma key_le_antisym (a b : Order) :
  key_le a b = true -> key_le b a = true -> key_eq a b = true.
Proof.
  unfold key_le, key_eq.
  pose proof (String.compare_antisym (color b) (color a)) as Hanti.
  destruct (String.compare (color a) (color b)) eqn:Hc;
    simpl in Hanti; rewrite Hanti; try discriminate.
  intros Hba Hab. apply String.compare_eq_iff in Hc.
  rewrite Hc, String.eqb_refl. simpl.
  apply Qeq_bool_iff. apply Qle_bool_iff in Hba, Hab.
  now apply Qle_antisym.
Qed.

Lemma head_le_member (x y : Order) (l : list Order) :
  StronglySorted key_order (y :: l) ->
  In x (y :: l) -> key_le y x = true.
Proof.
  intros Hs [<-|Hin].
  - apply key_eq_le, key_eq_refl.
  - apply StronglySorted_inv in Hs as [_ Hall].
    rewrite Forall_forall in Hall. now apply Hall.
Qed.

Lemma head_of_class (k x : Order) (l l' : list Order) :
  filter (key_eq k) l = x :: l' -> In x l.
Proof.
  intros H. assert (Hin : In x (filter (key_eq k) l))
    by (rewrite H; now left).
  now apply filter_In in Hin.
Qed.

(** A sequence sorted on the key is determined by its classes of equal
    keys: two stable sorts of one table agree, however they proceed. *)
Lemma sorted_classes_unique (a : list Order) :
  forall b,
    StronglySorted key_order a -> StronglySorted key_order b ->
    (forall k, filter (key_eq k) a = filter (key_eq k) b) ->
    a = b.
Proof.
  induction a as [|x a IH]; intros b Ha Hb Hcls.
  - destruct b as [|y b]; [reflexivity|].
    specialize (Hcls y). simpl in Hcls. rewrite key_eq_refl in Hcls.
    discriminate.
  - destruct b as [|y b].
    + specialize (Hcls x). simpl in Hcls. rewrite key_eq_refl in Hcls.
      discriminate.
    + assert (Hxy : key_eq x y = true).
      { apply key_le_antisym.
        - apply (head_le_member y x a Ha).
          pose proof (Hcls y) as Hy. simpl filter at 2 in Hy.
          rewrite key_eq_refl in Hy. exact (head_of_class _ _ _ _ Hy).
        - apply (head_le_member x y b Hb).
          pose proof (Hcls x) as Hx. simpl filter at 1 in Hx.
          rewrite key_eq_refl in Hx. symmetry in Hx.
          exact (head_of_class _ _ _ _ Hx). }
      assert (Heq : x = y).
      { pose proof (Hcls x) as Hx. simpl in Hx.
        rewrite key_eq_refl, Hxy in Hx. now injection Hx. }
      subst y. f_equal.
      apply IH.
      * now apply StronglySorted_inv in Ha.
      * now apply StronglySorted_inv in Hb.
      * intros k. specialize (Hcls k). simpl in Hcls.
        destruct (key_eq k x); [now injection Hcls | exact Hcls].
Qed.

End Grouping.

(** * Facts about changeover counting *)

Module Counting.

Lemma filter_length_perm {A : Type} (f : A -> bool) (l l' : list A) :
  Permutation l l' ->
  List.length (filter f l) = List.length (filter f l').
Proof.
  induction 1 as [|x l l' _ IH|x y l|l l' l'' _ IH1 _ IH2]; simpl.
  - reflexivity.
  - destruct (f x); simpl; congruence.
  - destruct (f x), (f y); reflexivity.
  - congruence.
Qed.

Lemma distinct_cons_in (a : string) (cs : list string) :
  In a cs -> distinct (a :: cs) = distinct cs.
Proof.
  intros Hin. unfold distinct. simpl.
  destruct (in_dec string_dec a cs); [reflexivity | contradiction].
Qed.

Lemma distinct_cons_notin (a : string) (cs : list string) :
  ~ In a cs -> distinct (a :: cs) = S (distinct cs).
Proof.
  intros Hin. unfold distinct. simpl.
  destruct (in_dec string_dec a cs); [contradiction | reflexivity].
Qed.

Lemma distinct_perm (cs cs' : list string) :
  Permutation cs cs' -> distinct cs = distinct cs'.
Proof.
  intros Hp. unfold distinct. apply Permutation_length.
  apply NoDup_Permutation; try apply NoDup_nodup.
  intros x. rewrite !nodup_In. split; apply Permutation_in;
    [exact Hp | now apply Permutation_sym].
Qed.

(** Any sequence changes colour at least (number of colours - 1) times. *)
Lemma distinct_le_jumps (cs : list string) :
  (distinct cs <= S (jumps cs))%nat.
Proof.
  induction cs as [|a tl IH].
  - unfold distinct. simpl. lia.
  - destruct tl as [|b rest].
    + unfold distinct. simpl. lia.
    + destruct (in_dec string_dec a (b :: rest)) as [Hin|Hout].
      * rewrite (distinct_cons_in _ _ Hin).
        change (jumps (a :: b :: rest))
          with ((if String.eqb b a then 0 else 1) + jumps (b :: rest))%nat.
        lia.
      * rewrite (distinct_cons_notin _ _ Hout).
        change (jumps (a :: b :: rest))
          with ((if String.eqb b a then 0 else 1) + jumps (b :: rest))%nat.
        destruct (String.eqb_spec b a) as [->|Hne].
        -- exfalso. apply Hout. now left.
        -- lia.
Qed.

(** A sequence sorted by colour changes colour exactly
    (number of colours - 1) times. *)
Lemma jumps_sorted (cs : list string) :
  StronglySorted color_le cs ->
  cs <> [] -> S (jumps cs) = distinct cs.
Proof.
  induction 1 as [|a tl Htl IH Hall]; intros Hne; [contradiction|].
  destruct tl as [|b rest].
  - reflexivity.
  - change (jumps (a :: b :: rest))
      with ((if String.eqb b a then 0 else 1) + jumps (b :: rest))%nat.
    specialize (IH ltac:(discriminate)).
    destruct (String.eqb_spec b a) as [->|Hba].
    + rewrite distinct_cons_in by now left. exact IH.
    + rewrite distinct_cons_notin; [rewrite <- IH; reflexivity|].
      intros Hin.
      assert (Hab : String.compare a b = Lt).
      { inversion Hall as [|? ? Hab _]; subst. unfold color_le in Hab.
        destruct (String.compare a b) eqn:Hc; try congruence.
        apply String.compare_eq_iff in Hc. congruence. }
      destruct Hin as [Heq|Hin]; [congruence|].
      inversion Htl as [|? ? _ Hb]; subst.
      rewrite Forall_forall in Hb. specialize (Hb a Hin).
      unfold color_le in Hb.
      destruct (String.compare b a) eqn:Hc; try congruence.
      * apply String.compare_eq_iff in Hc. congruence.
      * pose proof (Grouping.compare_lt_trans _ _ _ Hab Hc) as Hcyc.
        rewrite Grouping.compare_refl in Hcyc. discriminate.
Qed.

Lemma key_le_color_le (a b : Order) :
  key_le a b = true -> color_le (color a) (color b).
Proof.
  unfold key_le, color_le.
  destruct (String.compare (color a) (color b)); congruence.
Qed.

Lemma sorted_colors (df : list Order) :
  StronglySorted color_le (map color (sort_values df)).
Proof.
  pose proof (Grouping.sort_values_strongly_sorted df) as H.
  induction H as [|a l _ IH Hall]; simpl; constructor.
  - exact IH.
  - rewrite Forall_map. eapply Forall_impl; [|exact Hall].
    intros b. apply key_le_color_le.
Qed.

(** Grouping never adds a colour change. *)
Lemma jumps_sort_values (df : list Order) :
  (jumps (map color (sort_values df)) <= jumps (map color df))%nat.
Proof.
  destruct df as [|x df]; [simpl; lia|].
  pose proof (Grouping.sort_values_perm (x :: df)) as Hp.
  assert (Hne : map color (sort_values (x :: df)) <> []).
  { intros Hnil. apply map_eq_nil in Hnil. rewrite Hnil in Hp.
    apply Permutation_nil in Hp. discriminate. }
  pose proof (jumps_sorted _ (sorted_colors (x :: df)) Hne) as Hs.
  pose proof (distinct_perm _ _ (Permutation_map color Hp)) as Hd.
  pose proof (distinct_le_jumps (map color (x :: df))) as Hj.
  lia.
Qed.

End Counting.

(** * Facts about the emitted schedule *)

Section ScheduleFacts.

Variables line_speed setup_time : Z.

Local Abbreviation emit := (emit line_speed setup_time).
Local Abbreviation timed := (timed line_speed setup_time).

Lemma emit_production_rows rows :
  forall t last, production_rows (emit t last rows) = rows.
Proof.
  induction rows as [|row rest IH]; intros t last; simpl; [reflexivity|].
  destruct last as [c|]; [destruct (String.eqb (color row) c)|];
    simpl; now rewrite IH.
Qed.

Lemma emit_nil t last rows : emit t last rows = [] -> rows = [].
Proof.
  intros H. rewrite <- (emit_production_rows rows t last), H. reflexivity.
Qed.

Lemma emit_changeover_count rows :
  forall t last,
    changeover_count (emit t last rows) = jumps (colors_from last rows).
Proof.
  unfold changeover_count.
  induction rows as [|row rest IH]; intros t last.
  - destruct last; reflexivity.
  - destruct last as [c|]; simpl.
    + destruct (String.eqb (color row) c); simpl;
        rewrite IH; reflexivity.
    + rewrite IH. reflexivity.
Qed.

(** What the label comparison selects: the Changeover blocks and the
    Production blocks of the orders whose label is a homonym. *)
Lemma emit_named_count rows :
  forall t last,
    List.length (filter named_changeover (emit t last rows))
    = (jumps (colors_from last rows) + List.length (filter homonym rows))%nat.
Proof.
  induction rows as [|row rest IH]; intros t last.
  - destruct last; reflexivity.
  - assert (Hprod : forall s e, named_changeover (Production row s e)
                                = homonym row) by reflexivity.
    destruct last as [c|]; simpl.
    + destruct (String.eqb (color row) c); simpl;
        rewrite Hprod; destruct (homonym row); simpl;
        rewrite IH; simpl; lia.
    + rewrite Hprod; destruct (homonym row); simpl;
        rewrite IH; simpl; lia.
Qed.

Lemma last_opt_cons_cons {A : Type} (a b : A) (l : list A) :
  last_opt (a :: b :: l) = last_opt (b :: l).
Proof.
  simpl. destruct (last_opt l); reflexivity.
Qed.

Lemma ends_with_changeover_production row s e pre :
  ends_with_changeover (Production row s e :: pre) = ends_with_changeover pre.
Proof.
  unfold ends_with_changeover. destruct pre as [|b pre].
  - reflexivity.
  - now rewrite last_opt_cons_cons.
Qed.

Lemma previous_color_production last row s e pre :
  previous_color last (Production row s e :: pre)
  = previous_color (Some (color row)) pre.
Proof.
  unfold previous_color. simpl.
  destruct (last_opt (production_rows pre)); reflexivity.
Qed.

Lemma ends_with_changeover_skip b b' pre :
  ends_with_changeover (b :: b' :: pre) = ends_with_changeover (b' :: pre).
Proof.
  unfold ends_with_changeover. now rewrite last_opt_cons_cons.
Qed.

Lemma previous_color_changeover last s e from to pre :
  previous_color last (Changeover s e from to :: pre)
  = previous_color last pre.
Proof.
  reflexivity.
Qed.

(** The rule of the loop, read off the schedule: the block in front of a
    Production block is a Changeover exactly when the colour in force
    before it differs from its own. *)
Lemma emit_changeover_rule rows :
  forall t last pre row s e post,
    emit t last rows = (pre ++ Production row s e :: post)%list ->
    ends_with_changeover pre
    = match previous_color last pre with
      | Some c => negb (String.eqb (color row) c)
      | None => false
      end.
Proof.
  induction rows as [|r rest IH]; intros t last pre row s e post Heq.
  - destruct pre; discriminate.
  - simpl in Heq.
    assert (Hstep : forall t' pre',
      emit t' (Some (color r)) rest
      = (pre' ++ Production row s e :: post)%list ->
      ends_with_changeover pre'
      = match previous_color (Some (color r)) pre' with
        | Some c => negb (String.eqb (color row) c)
        | None => false
        end) by (intros; eapply IH; eassumption).
    destruct last as [c|]; [destruct (String.eqb (color r) c) eqn:Hc|].
    + destruct pre as [|b pre]; simpl in Heq.
      * injection Heq as <- _ _ _. unfold ends_with_changeover. simpl.
        now rewrite Hc.
      * injection Heq as <- Heq.
        rewrite ends_with_changeover_production, previous_color_production.
        eapply Hstep; eassumption.
    + destruct pre as [|b pre]; simpl in Heq; [discriminate|].
      injection Heq as <- Heq.
      destruct pre as [|b' pre]; simpl in Heq.
      * injection Heq as <- _ _ _. unfold ends_with_changeover. simpl.
        now rewrite Hc.
      * injection Heq as <- Heq.
        rewrite ends_with_changeover_skip, ends_with_changeover_production.
        rewrite previous_color_changeover, previous_color_production.
        eapply Hstep; eassumption.
    + destruct pre as [|b pre]; simpl in Heq.
      * injection Heq as <- _ _ _. reflexivity.
      * injection Heq as <- Heq.
        rewrite ends_with_changeover_production, previous_color_production.
        eapply Hstep; eassumption.
Qed.

Lemma timed_weaken row rows b : timed rows b -> timed (row :: rows) b.
Proof.
  destruct b as [s e from to|r s e]; simpl; [trivial|].
  intros [Hin Hd]. split; [now right | exact Hd].
Qed.

Lemma emit_timed rows :
  forall t last b, In b (emit t last rows) -> timed rows b.
Proof.
  induction rows as [|row rest IH]; intros t last b Hin; [contradiction|].
  simpl in Hin.
  assert (Hprod : forall s,
    timed (row :: rest)
      (Production row s (s + quantity row / inject_Z line_speed * 60)%Q)).
  { intros s. simpl. split; [now left | ring]. }
  destruct last as [c|]; [destruct (String.eqb (color row) c)|];
    simpl in Hin.
  - destruct Hin as [<-|Hin]; [apply Hprod|].
    apply timed_weaken. eapply IH; eassumption.
  - destruct Hin as [<-|[<-|Hin]]; [simpl; ring | apply Hprod |].
    apply timed_weaken. eapply IH; eassumption.
  - destruct Hin as [<-|Hin]; [apply Hprod|].
    apply timed_weaken. eapply IH; eassumption.
Qed.

Lemma production_minutes_pos (q : Q) :
  0 < line_speed -> (0 < q)%Q -> (0 < q / inject_Z line_speed * 60)%Q.
Proof.
  intros Hs Hq.
  apply Qmult_lt_0_compat; [|reflexivity].
  apply Qlt_shift_div_l.
  - change 0%Q with (inject_Z 0). now rewrite <- Zlt_Qlt.
  - now rewrite Qmult_0_l.
Qed.

Lemma production_minutes_nonneg (q : Q) :
  0 < line_speed -> (0 <= q)%Q -> (0 <= q / inject_Z line_speed * 60)%Q.
Proof.
  intros Hs Hq.
  apply Qmult_le_0_compat; [|discriminate].
  apply Qle_shift_div_l.
  - change 0%Q with (inject_Z 0). now rewrite <- Zlt_Qlt.
  - now rewrite Qmult_0_l.
Qed.

Lemma lt_of_duration (s e d : Q) :
  (e - s == d)%Q -> (0 < d)%Q -> (s < e)%Q.
Proof.
  intros Hd Hpos. apply Qlt_minus_iff.
  unfold Qminus in Hd. now rewrite Hd.
Qed.

Lemma le_of_duration (s e d : Q) :
  (e - s == d)%Q -> (0 <= d)%Q -> (s <= e)%Q.
Proof.
  intros Hd Hpos. apply Qle_minus_iff.
  unfold Qminus in Hd. now rewrite Hd.
Qed.

End ScheduleFacts.

(** * Facts about the metrics *)

Section MetricFacts.

Variables line_speed setup_time : Z.

Local Abbreviation emit := (emit line_speed setup_time).
Local Abbreviation named_loss := (named_loss setup_time).

Lemma changeover_loss_frame (sched : list Block) :
  changeover_loss setup_time (pd_DataFrame sched)
  = match sched with
    | [] => Raise (KeyError "작업명")
    | _ :: _ =>
        Ok (Z.of_nat (List.length (filter named_changeover sched))
            * setup_time)
    end.
Proof.
  destruct sched; reflexivity.
Qed.

Lemma changeover_loss_emit (rows : list Order) :
  rows <> [] ->
  changeover_loss setup_time (pd_DataFrame (emit day_start None rows))
  = Ok (named_loss rows).
Proof.
  intros Hne. rewrite changeover_loss_frame.
  destruct (emit day_start None rows) eqn:He.
  - apply emit_nil in He. contradiction.
  - rewrite <- He. unfold named_loss.
    now rewrite emit_named_count.
Qed.

Lemma sort_values_nonempty (df : list Order) :
  df <> [] -> sort_values df <> [].
Proof.
  intros Hne Hnil. pose proof (Grouping.sort_values_perm df) as Hp.
  rewrite Hnil in Hp. apply Permutation_nil in Hp. contradiction.
Qed.

(** The guard of the third metric keeps the divisor away from zero. *)
Lemma guarded_divisor (saved loss : Z) :
  true_div saved (if 0 <? loss then loss else 1)
  = Ok (inject_Z saved / inject_Z (if 0 <? loss then loss else 1))%Q.
Proof.
  unfold true_div.
  destruct (Z.ltb_spec 0 loss) as [Hpos|_]; [|reflexivity].
  destruct (Z.eqb_spec loss 0) as [Hz|_]; [lia | reflexivity].
Qed.

Lemma simulate_nonempty (df : list Order) :
  line_speed <> 0 -> df <> [] ->
  simulate line_speed setup_time df
  = Ok {| loss_asis := named_loss df;
          loss_tobe := named_loss (sort_values df);
          time_saved := named_loss df - named_loss (sort_values df);
          efficiency :=
            (inject_Z (named_loss df - named_loss (sort_values df))
             / inject_Z (if 0 <? named_loss df then named_loss df else 1)
             * 100)%Q |}.
Proof.
  intros Hs Hne. unfold simulate.
  rewrite !(calculate_schedule_emit line_speed setup_time _ _ Hs).
  unfold ordered, bind.
  rewrite (changeover_loss_emit df Hne).
  rewrite (changeover_loss_emit _ (sort_values_nonempty df Hne)).
  rewrite guarded_divisor. reflexivity.
Qed.

Lemma simulate_empty :
  simulate line_speed setup_time [] = Raise (KeyError "작업명").
Proof.
  reflexivity.
Qed.

Lemma simulate_zero_speed (df : list Order) :
  line_speed = 0 -> df <> [] ->
  simulate line_speed setup_time df = Raise ZeroDivisionError.
Proof.
  intros Hs Hne. destruct df as [|row rest]; [contradiction|].
  unfold simulate, calculate_schedule.
  rewrite (iterrows_zero_speed line_speed setup_time row rest _ Hs).
  reflexivity.
Qed.

(** Grouping never raises the loss when the changeover time is not
    negative. *)
Lemma named_loss_sort_values (df : list Order) :
  0 <= setup_time -> named_loss (sort_values df) <= named_loss df.
Proof.
  intros Hs. unfold named_loss.
  rewrite (Counting.filter_length_perm homonym _ _
             (Grouping.sort_values_perm df)).
  pose proof (Counting.jumps_sort_values df) as Hj.
  apply Z.mul_le_mono_nonneg_r; [exact Hs | lia].
Qed.

End MetricFacts.

Lemma ordered_perm (df : list Order) (is_optimized : bool) :
  Permutation (ordered df is_optimized) df.
Proof.
  destruct is_optimized; simpl.
  - apply Grouping.sort_values_perm.
  - apply Permutation_refl.
Qed.

Lemma last_opt_cons_some {A : Type} (a b : A) (l : list A) :
  last_opt l = Some b -> last_opt (a :: l) = Some b.
Proof.
  intros H. simpl. now rewrite H.
Qed.

(** * Facts about the builder on Python's clock *)

Module ClockFacts.

Import Clock.

(** The rounded value, between the two halves around the exact one. *)
Lemma round_half_even_cases (q : Q) :
  2 * Qnum q - Zpos (Qden q)
  <= 2 * Zpos (Qden q) * round_half_even q
  <= 2 * Qnum q + Zpos (Qden q) /\
  (0 <= Qnum q -> 0 <= round_half_even q) /\
  (Qnum q <= 0 -> round_half_even q <= 0) /\
  (Zpos (Qden q) < 2 * Qnum q -> 0 < round_half_even q).
Proof.
  destruct q as [n d]. unfold round_half_even. cbn [Qnum Qden].
  pose proof (Z.div_mod n (Zpos d) ltac:(lia)) as Hdm.
  pose proof (Z.mod_pos_bound n (Zpos d) ltac:(lia)) as Hr.
  set (f := n / Zpos d) in *. set (r := n mod Zpos d) in *.
  destruct (Z.compare_spec (2 * r) (Zpos d)) as [He|Hl|Hg];
    [destruct (Z.even f)|..]; repeat split; try nia.
Qed.

Lemma round_half_even_near (q : Q) :
  (q - (1 # 2) <= inject_Z (round_half_even q))%Q /\
  (inject_Z (round_half_even q) <= q + (1 # 2))%Q.
Proof.
  destruct (round_half_even_cases q) as [[Hlo Hhi] _].
  destruct q as [n d]. cbn [Qnum Qden] in *.
  unfold Qle, Qminus, Qplus, Qopp, inject_Z. cbn [Qnum Qden].
  split; nia.
Qed.

Lemma round_half_even_nonneg (q : Q) :
  (0 <= q)%Q -> 0 <= round_half_even q.
Proof.
  intros Hq. apply round_half_even_cases.
  unfold Qle in Hq. simpl in Hq. lia.
Qed.

Lemma round_half_even_pos (q : Q) :
  (1 # 2 < q)%Q -> 0 < round_half_even q.
Proof.
  intros Hq. apply round_half_even_cases.
  unfold Qlt in Hq. simpl in Hq. lia.
Qed.

Lemma timedelta_of_us_inv (us : Z) (d : timedelta) :
  timedelta_of_us us = Ok d -> d = us.
Proof.
  unfold timedelta_of_us.
  destruct (_ && _); [now intros [= <-] | discriminate].
Qed.

Lemma timedelta_of_us_small (us : Z) :
  Z.abs us <= day_start -> timedelta_of_us us = Ok us.
Proof.
  intros Hb. unfold timedelta_of_us, day_start, us_per_day in *.
  destruct (Z.leb_spec (-999999999) (us / 86400000000));
    destruct (Z.leb_spec (us / 86400000000) 999999999);
    try reflexivity; exfalso; Z.div_mod_to_equations; lia.
Qed.

Lemma datetime_add_inv (t t' : datetime) (d : timedelta) :
  datetime_add t d = Ok t' -> t' = t + d /\ 0 <= t' <= datetime_max.
Proof.
  unfold datetime_add.
  destruct (Z.leb_spec 0 (t + d)), (Z.leb_spec (t + d) datetime_max);
    simpl; try discriminate.
  intros [= <-]. lia.
Qed.

Lemma datetime_add_in_range (t : datetime) (d : timedelta) :
  0 <= t + d <= datetime_max -> datetime_add t d = Ok (t + d).
Proof.
  intros [Hlo Hhi]. unfold datetime_add.
  destruct (Z.leb_spec 0 (t + d)), (Z.leb_spec (t + d) datetime_max);
    simpl; try reflexivity; lia.
Qed.

Section Loop.

Variables line_speed setup_time : Z.

Local Abbreviation loop_body := (loop_body line_speed setup_time).
Local Abbreviation iterrows := (iterrows line_speed setup_time).
Local Abbreviation emit := (emit line_speed setup_time).
Local Abbreviation production_us := (production_us line_speed).
Local Abbreviation setup_us := (setup_us setup_time).
Local Abbreviation span := (span line_speed setup_time).

(** One turn that succeeds appended the blocks of [emit] for its row. *)
Lemma loop_body_inv (st st' : LoopState) (row : Order) :
  loop_body st row = Ok st' ->
  line_speed <> 0 /\
  last_color st' = Some (color row) /\
  exists blocks,
    schedule_list st' = (schedule_list st ++ blocks)%list /\
    forall rest,
      emit (start_time st) (last_color st) (row :: rest)
      = (blocks ++ emit (start_time st') (Some (color row)) rest)%list.
Proof.
  unfold Clock.loop_body, production_minutes, timedelta_of_int_minutes,
    timedelta_of_minutes.
  assert (Hfinish : forall st1 : LoopState,
    (pm <- (if line_speed =? 0 then Raise ZeroDivisionError
            else Ok (quantity row / inject_Z line_speed * 60)%Q) ;;
     d <- timedelta_of_us (round_half_even (pm * inject_Z us_per_minute)) ;;
     end_time <- datetime_add (start_time st1) d ;;
     Ok {| start_time := end_time;
           schedule_list :=
             (schedule_list st1
              ++ [Production row (start_time st1) end_time])%list;
           last_color := Some (color row) |}) = Ok st' ->
    line_speed <> 0 /\
    last_color st' = Some (color row) /\
    start_time st' = start_time st1 + production_us row /\
    schedule_list st'
    = (schedule_list st1
       ++ [Production row (start_time st1)
             (start_time st1 + production_us row)])%list).
  { intros st1 H.
    destruct (Z.eqb_spec line_speed 0) as [|Hnz]; [discriminate|].
    simpl in H.
    destruct (timedelta_of_us _) as [d|] eqn:Hd; [|discriminate].
    apply timedelta_of_us_inv in Hd. simpl in H.
    destruct (datetime_add _ d) as [t|] eqn:Ht; [|discriminate].
    apply datetime_add_inv in Ht as [Ht _]. simpl in H.
    injection H as <-. simpl. subst t d.
    split; [exact Hnz|]. repeat split. }
  intros Hrun.
  destruct (last_color st) as [c|] eqn:Hc;
    [destruct (String.eqb (color row) c) eqn:He|]; simpl in Hrun.
  - destruct (Hfinish st Hrun) as (Hnz & Hl & Ht & Hs).
    split; [exact Hnz|]. split; [exact Hl|].
    eexists. split; [exact Hs|].
    intros rest. simpl. rewrite He, Ht. reflexivity.
  - destruct (timedelta_of_us (setup_time * us_per_minute)) as [d|] eqn:Hd;
      [|discriminate].
    apply timedelta_of_us_inv in Hd. simpl in Hrun.
    destruct (datetime_add (start_time st) d) as [t1|] eqn:Ht1;
      [|discriminate].
    apply datetime_add_inv in Ht1 as [Ht1 _]. simpl in Hrun.
    destruct (Hfinish
                (mkState t1
                   (schedule_list st
                    ++ [Changeover (start_time st) t1 c (color row)])%list
                   (Some c)) Hrun) as (Hnz & Hl & Ht & Hs).
    simpl in Ht, Hs. subst d t1.
    split; [exact Hnz|]. split; [exact Hl|].
    eexists. split; [rewrite Hs, <- app_assoc; reflexivity|].
    intros rest. simpl. rewrite He, Ht. reflexivity.
  - destruct (Hfinish st Hrun) as (Hnz & Hl & Ht & Hs).
    split; [exact Hnz|]. split; [exact Hl|].
    eexists. split; [exact Hs|].
    intros rest. simpl. rewrite Ht. reflexivity.
Qed.

(** A run that succeeds appended the blocks of [emit]. *)
Lemma iterrows_inv (rows : list Order) :
  forall st st',
    iterrows rows st = Ok st' ->
    schedule_list st'
    = (schedule_list st ++ emit (start_time st) (last_color st) rows)%list /\
    (rows <> [] -> line_speed <> 0).
Proof.
  induction rows as [|row rest IH]; intros st st' Hrun.
  - injection Hrun as <-. split; [now rewrite app_nil_r | contradiction].
  - simpl in Hrun.
    destruct (loop_body st row) as [st1|] eqn:Hstep; [|discriminate].
    simpl in Hrun.
    destruct (loop_body_inv _ _ _ Hstep) as (Hnz & Hl & blocks & Hs & Hemit).
    destruct (IH _ _ Hrun) as [Hrest _].
    split; [|intros _; exact Hnz].
    rewrite Hrest, Hs, Hl, Hemit, <- app_assoc. reflexivity.
Qed.

(** A run fails by overflow only, once the line speed is not zero. *)
Lemma loop_body_overflow (st : LoopState) (row : Order) :
  line_speed <> 0 ->
  (exists st', loop_body st row = Ok st') \/
  loop_body st row = Raise OverflowError.
Proof.
  intros Hnz.
  unfold Clock.loop_body, production_minutes, timedelta_of_int_minutes,
    timedelta_of_minutes, timedelta_of_us, datetime_add.
  destruct (Z.eqb_spec line_speed 0) as [|_]; [contradiction|].
  repeat match goal with
         | |- context [if ?b then _ else _] => destruct b; simpl
         | |- context [match ?o with Some _ => _ | None => _ end] =>
             destruct o; simpl
         end;
    (now right) || (left; eexists; reflexivity).
Qed.

Lemma iterrows_overflow (rows : list Order) :
  line_speed <> 0 ->
  forall st,
    (exists st', iterrows rows st = Ok st') \/
    iterrows rows st = Raise OverflowError.
Proof.
  intros Hnz. induction rows as [|row rest IH]; intros st; simpl.
  - left. now exists st.
  - destruct (loop_body_overflow st row Hnz) as [[st1 Hstep]|Hstep];
      rewrite Hstep; simpl; [apply IH | now right].
Qed.

(** A run succeeds when the table spans no more than the time on either
    side of the cursor. *)
Lemma iterrows_fits (rows : list Order) :
  line_speed <> 0 ->
  forall st,
    span rows <= day_start ->
    0 <= start_time st - span rows ->
    start_time st + span rows <= datetime_max ->
    exists st', iterrows rows st = Ok st'.
Proof.
  intros Hnz. induction rows as [|row rest IH]; intros st Hsp Hlo Hhi.
  - now exists st.
  - simpl in Hsp, Hlo, Hhi.
    assert (Hspan : 0 <= span rest).
    { clear. induction rest as [|r l IHl]; simpl; lia. }
    fold (span rest) in Hsp, Hlo, Hhi.
    assert (Hstep : exists st1,
      loop_body st row = Ok st1 /\
      start_time st - Z.abs (production_us row) - Z.abs setup_us
      <= start_time st1
      <= start_time st + Z.abs (production_us row) + Z.abs setup_us).
    { unfold Clock.loop_body, production_minutes, timedelta_of_int_minutes,
        timedelta_of_minutes.
      destruct (Z.eqb_spec line_speed 0) as [|_]; [contradiction|].
      destruct (last_color st) as [c|];
        [destruct (String.eqb (color row) c)|]; cbn [bind negb];
        change (round_half_even _) with (production_us row);
        fold setup_us.
      - rewrite (timedelta_of_us_small (production_us row)) by lia.
        cbn [bind]. rewrite datetime_add_in_range by lia.
        eexists. split; [reflexivity | simpl; lia].
      - rewrite (timedelta_of_us_small setup_us) by lia.
        cbn [bind]. rewrite datetime_add_in_range by lia.
        cbn [bind start_time].
        rewrite (timedelta_of_us_small (production_us row)) by lia.
        cbn [bind]. rewrite datetime_add_in_range by lia.
        eexists. split; [reflexivity | simpl; lia].
      - rewrite (timedelta_of_us_small (production_us row)) by lia.
        cbn [bind]. rewrite datetime_add_in_range by lia.
        eexists. split; [reflexivity | simpl; lia]. }
    destruct Hstep as (st1 & Hstep & Hb).
    simpl. rewrite Hstep. simpl. apply IH; lia.
Qed.

Lemma clock_emit_production_rows (rows : list Order) :
  forall t last, production_rows (emit t last rows) = rows.
Proof.
  induction rows as [|row rest IH]; intros t last; simpl; [reflexivity|].
  destruct last as [c|]; [destruct (String.eqb (color row) c)|];
    simpl; now rewrite IH.
Qed.

Lemma clock_emit_changeover_count (rows : list Order) :
  forall t last,
    changeover_count (emit t last rows) = jumps (colors_from last rows).
Proof.
  unfold changeover_count.
  induction rows as [|row rest IH]; intros t last.
  - destruct last; reflexivity.
  - destruct last as [c|]; simpl.
    + destruct (String.eqb (color row) c); simpl; rewrite IH; reflexivity.
    + rewrite IH. reflexivity.
Qed.

(** How long the emitted blocks last, in microseconds. *)
Lemma clock_emit_timed (rows : list Order) :
  forall t last b,
    In b (emit t last rows) ->
    match b with
    | Changeover s e _ _ => e - s = setup_us
    | Production row s e => In row rows /\ e - s = production_us row
    end.
Proof.
  induction rows as [|row rest IH]; intros t last b Hin; [contradiction|].
  assert (Hrest : forall t' last',
    In b (emit t' last' rest) ->
    match b with
    | Changeover s e _ _ => e - s = setup_us
    | Production r s e => In r (row :: rest) /\ e - s = production_us r
    end).
  { intros t' last' H. specialize (IH _ _ _ H).
    destruct b; [exact IH|]. destruct IH. split; [now right | assumption]. }
  simpl in Hin.
  destruct last as [c|]; [destruct (String.eqb (color row) c)|];
    simpl in Hin.
  - destruct Hin as [<-|Hin];
      [split; [now left | lia] | eapply Hrest; eassumption].
  - destruct Hin as [<-|[<-|Hin]];
      [lia | split; [now left | lia] | eapply Hrest; eassumption].
  - destruct Hin as [<-|Hin];
      [split; [now left | lia] | eapply Hrest; eassumption].
Qed.

Lemma span_perm (l l' : list Order) :
  Permutation l l' -> span l = span l'.
Proof.
  induction 1 as [|x l l' _ IH|x y l|l l' l'' _ IH1 _ IH2]; simpl.
  - reflexivity.
  - fold (span l) (span l'). lia.
  - lia.
  - congruence.
Qed.

End Loop.

(** What a returned frame holds. *)
Lemma calculate_schedule_inv
  (line_speed setup_time : Z) (df : list Order) (is_optimized : bool)
  (sched : DataFrame) :
  calculate_schedule line_speed setup_time df is_optimized = Ok sched ->
  rows sched
  = emit line_speed setup_time day_start None (ordered df is_optimized) /\
  (df <> [] -> line_speed <> 0).
Proof.
  unfold calculate_schedule. fold (ordered df is_optimized).
  destruct (iterrows _ _ _ _) as [st|] eqn:Hrun; [|discriminate].
  simpl. intros [= <-].
  destruct (iterrows_inv _ _ _ _ _ Hrun) as [Hrows Hnz].
  split; [exact Hrows|].
  intros Hne. apply Hnz. intros Hnil.
  pose proof (ordered_perm df is_optimized) as Hp.
  rewrite Hnil in Hp. apply Permutation_nil in Hp. contradiction.
Qed.

(** The builder returns a frame when the line speed is not zero and the
    table spans no more than the time between 0001-01-01 and the
    start. *)
Lemma calculate_schedule_fits
  (line_speed setup_time : Z) (df : list Order) (is_optimized : bool) :
  line_speed <> 0 ->
  span line_speed setup_time df <= day_start ->
  exists sched,
    calculate_schedule line_speed setup_time df is_optimized = Ok sched.
Proof.
  intros Hnz Hspan.
  rewrite <- (span_perm _ _ _ _ (ordered_perm df is_optimized)) in Hspan.
  unfold calculate_schedule. fold (ordered df is_optimized).
  destruct (iterrows_fits line_speed setup_time
              (ordered df is_optimized) Hnz
              {| start_time := day_start; schedule_list := [];
                 last_color := None |} Hspan)
    as [st Hrun].
  - cbn [start_time]. lia.
  - cbn [start_time]. unfold datetime_max, day_start in *. lia.
  - rewrite Hrun. cbn [bind]. now eexists.
Qed.

(** At line speed zero the division of the first row faults: no
    changeover comes before it. *)
Lemma calculate_schedule_zero_speed
  (setup_time : Z) (row : Order) (rest : list Order) (is_optimized : bool) :
  calculate_schedule 0 setup_time (row :: rest) is_optimized
  = Raise ZeroDivisionError.
Proof.
  unfold calculate_schedule. fold (ordered (row :: rest) is_optimized).
  destruct (ordered (row :: rest) is_optimized) as [|r l] eqn:Ho.
  - pose proof (ordered_perm (row :: rest) is_optimized) as Hp.
    rewrite Ho in Hp. apply Permutation_nil in Hp. discriminate.
  - reflexivity.
Qed.

Lemma calculate_schedule_empty
  (line_speed setup_time : Z) (is_optimized : bool) :
  calculate_schedule line_speed setup_time [] is_optimized
  = Ok (pd_DataFrame []).
Proof.
  now destruct is_optimized.
Qed.

(** Why a run fails. *)
Lemma calculate_schedule_failure
  (line_speed setup_time : Z) (df : list Order) (is_optimized : bool)
  (e : exn) :
  calculate_schedule line_speed setup_time df is_optimized = Raise e ->
  (e = ZeroDivisionError /\ line_speed = 0 /\ df <> []) \/
  (e = OverflowError /\ line_speed <> 0 /\ df <> []).
Proof.
  destruct df as [|row rest].
  - rewrite calculate_schedule_empty. discriminate.
  - destruct (Z.eq_dec line_speed 0) as [Hz|Hnz].
    + subst line_speed. rewrite calculate_schedule_zero_speed.
      intros [= <-]. left. repeat split. discriminate.
    + unfold calculate_schedule.
      destruct (iterrows_overflow line_speed setup_time
                  (if is_optimized then sort_values (row :: rest)
                   else row :: rest) Hnz
                  {| start_time := day_start; schedule_list := [];
                     last_color := None |}) as [[st Hrun]|Hrun];
        rewrite Hrun; cbn [bind]; [discriminate|].
      intros [= <-]. right. repeat split; [exact Hnz | discriminate].
Qed.

Lemma worked_us_perm (line_speed : Z) (l l' : list Order) :
  Permutation l l' -> worked_us line_speed l = worked_us line_speed l'.
Proof.
  induction 1 as [|x l l' _ IH|x y l|l l' l'' _ IH1 _ IH2]; simpl.
  - reflexivity.
  - fold (worked_us line_speed l) (worked_us line_speed l'). lia.
  - lia.
  - congruence.
Qed.

(** Where the cursor stands after the loop has run over [rows]. *)
Lemma clock_emit_last_finish (line_speed setup_time : Z) (rows : list Order) :
  forall t last,
    rows <> [] ->
    exists b,
      last_opt (emit line_speed setup_time t last rows) = Some b /\
      finish b
      = t + worked_us line_speed rows
        + Z.of_nat (changeover_count (emit line_speed setup_time t last rows))
          * setup_us setup_time.
Proof.
  unfold changeover_count.
  induction rows as [|r rest IH]; intros t last Hne; [contradiction|].
  assert (Hprod : forall s,
    exists b,
      last_opt
        (Production r s (s + production_us line_speed r)
         :: emit line_speed setup_time (s + production_us line_speed r)
              (Some (color r)) rest) = Some b /\
      finish b
      = s + worked_us line_speed (r :: rest)
        + Z.of_nat
            (List.length
               (filter is_changeover_block
                  (emit line_speed setup_time
                     (s + production_us line_speed r)
                     (Some (color r)) rest)))
          * setup_us setup_time).
  { intros s. destruct rest as [|r' rest'].
    - eexists. split; [reflexivity|]. simpl. lia.
    - destruct (IH (s + production_us line_speed r) (Some (color r))
                  ltac:(discriminate)) as (b & Hlast & Hfin).
      exists b. split; [now apply last_opt_cons_some|].
      rewrite Hfin.
      change (worked_us line_speed (r :: r' :: rest'))
        with (production_us line_speed r
              + worked_us line_speed (r' :: rest')).
      lia. }
  simpl emit.
  destruct last as [c|]; [destruct (String.eqb (color r) c)|].
  - apply Hprod.
  - destruct (Hprod (t + setup_us setup_time)) as (b & Hlast & Hfin).
    exists b. split; [now apply last_opt_cons_some|].
    rewrite Hfin. simpl filter. simpl List.length.
    rewrite Nat2Z.inj_succ. lia.
  - apply Hprod.
Qed.

End ClockFacts.

(** The blocks that the two embeddings emit differ by their times only:
    the labels, which the metrics read, are the same. *)
Lemma emit_labels (line_speed setup_time : Z) (rows : list Order) :
  forall t t' last,
    map Clock.label (Clock.emit line_speed setup_time t last rows)
    = map label (emit line_speed setup_time t' last rows).
Proof.
  induction rows as [|row rest IH]; intros t t' last; simpl; [reflexivity|].
  destruct last as [c|]; [destruct (String.eqb (color row) c)|];
    simpl; f_equal; try f_equal; apply IH.
Qed.

Lemma clock_schedule_labels
  (line_speed setup_time : Z) (df : list Order) (is_optimized : bool)
  (sched : Clock.DataFrame) :
  Clock.calculate_schedule line_speed setup_time df is_optimized = Ok sched ->
  exists exact,
    calculate_schedule line_speed setup_time df is_optimized = Ok exact /\
    map Clock.label (Clock.rows sched) = map label (rows exact).
Proof.
  intros Hrun.
  destruct (ClockFacts.calculate_schedule_inv _ _ _ _ _ Hrun) as [Hrows Hnz].
  destruct df as [|row rest].
  - exists (pd_DataFrame []). split; [now destruct is_optimized|].
    rewrite Hrows. now destruct is_optimized.
  - eexists. split; [apply calculate_schedule_emit, Hnz; discriminate|].
    rewrite Hrows. apply emit_labels.
Qed.

(** * The schedule of the default table *)

Ltac evaluated := split; [vm_compute; reflexivity|].

(** C1. On the eight default orders with a line speed of 20 tons per hour
    and a changeover of 60 minutes, the submission-order schedule holds
    exactly 7 Changeover blocks that last 420 minutes in total, the
    grouped-order schedule runs Blue, Red, White with exactly 2 Changeover
    blocks lasting 120 minutes, the time saved is 300 minutes and the
    efficiency improvement is 300/420*100, which lies strictly between
    71.35 and 71.45 and so reads 71.4 with one decimal. *)
Theorem default_scenario :
  exists asis tobe summary,
    calculate_schedule 20 60 default_data false = Ok asis /\
    calculate_schedule 20 60 default_data true = Ok tobe /\
    changeover_count (rows asis) = 7%nat /\
    (changeover_minutes (rows asis) == 420)%Q /\
    total_changeover 60 (rows asis) = 420 /\
    map color (production_rows (rows tobe))
    = ["Blue"; "Blue"; "Blue"; "Red"; "Red"; "White"; "White"; "White"] /\
    changeover_count (rows tobe) = 2%nat /\
    (changeover_minutes (rows tobe) == 120)%Q /\
    total_changeover 60 (rows tobe) = 120 /\
    simulate 20 60 default_data = Ok summary /\
    loss_asis summary = 420 /\
    loss_tobe summary = 120 /\
    time_saved summary = 300 /\
    (efficiency summary == 300 / 420 * 100)%Q /\
    (7135 # 100 < efficiency summary)%Q /\
    (efficiency summary < 7145 # 100)%Q.
Proof.
  do 3 eexists.
  do 15 evaluated.
  vm_compute; reflexivity.
Qed.

(** * Invariants of every schedule *)








Lemma calculate_schedule_rows
  (line_speed setup_time : Z) (df : list Order) (is_optimized : bool)
  (sched : DataFrame) :
  calculate_schedule line_speed setup_time df is_optimized = Ok sched ->
  rows sched
  = emit line_speed setup_time day_start None (ordered df is_optimized).
Proof.
  destruct (Z.eq_dec line_speed 0) as [Hz|Hnz].
  - unfold calculate_schedule. fold (ordered df is_optimized).
    destruct (ordered df is_optimized) as [|row rest].
    + simpl. intros [= <-]. reflexivity.
    + rewrite (iterrows_zero_speed _ _ _ _ _ Hz). discriminate.
  - rewrite (calculate_schedule_emit _ _ _ _ Hnz). intros [= <-]. reflexivity.
Qed.

(** The composite key reads: colour ascending, then width descending. *)
Lemma key_order_spec (a b : Order) :
  key_order a b <->
  String.compare (color a) (color b) = Lt \/
  (color a = color b /\ (width b <= width a)%Q).
Proof.
  unfold key_order, key_le. split.
  - destruct (String.compare (color a) (color b)) eqn:Hc; intros H.
    + right. split; [now apply String.compare_eq_iff | now apply Qle_bool_iff].
    + now left.
    + discriminate.
  - intros [Hlt|[Heq Hw]].
    + now rewrite Hlt.
    + rewrite Heq, Grouping.compare_refl. now apply Qle_bool_iff.
Qed.

(** * The grouped-order policy *)

(** C5. The grouped-order policy reorders the orders by colour ascending
    and then width descending, keeps the orders of equal colour and equal
    width in their input order, and is reproducible: grouping an already
    grouped sequence changes nothing, the grouped schedule lists its
    Production blocks in exactly that sequence, and every sequence that
    is sorted on the key and keeps the input order inside each class of
    equal keys is that same sequence. *)
Theorem grouped_policy_stable (df : list Order) :
  Permutation (ordered df true) df /\
  StronglySorted key_order (ordered df true) /\
  (forall k : Order,
     filter (key_eq k) (ordered df true) = filter (key_eq k) df) /\
  ordered (ordered df true) true = ordered df true /\
  (forall line_speed setup_time,
     calculate_schedule line_speed setup_time (ordered df true) true
     = calculate_schedule line_speed setup_time df true) /\
  (forall line_speed setup_time sched,
     calculate_schedule line_speed setup_time df true = Ok sched ->
     production_rows (rows sched) = ordered df true) /\
  (forall other : list Order,
     StronglySorted key_order other ->
     (forall k : Order, filter (key_eq k) other = filter (key_eq k) df) ->
     other = ordered df true).
Proof.
  assert (Hid : sort_values (sort_values df) = sort_values df)
    by apply Grouping.sort_values_sorted_id, Grouping.sort_values_sorted.
  simpl. repeat split.
  - apply Grouping.sort_values_perm.
  - apply Grouping.sort_values_strongly_sorted.
  - intros k. apply Grouping.sort_values_stable.
  - exact Hid.
  - intros line_speed setup_time. unfold calculate_schedule.
    now rewrite Hid.
  - intros line_speed setup_time sched Hrun.
    rewrite (calculate_schedule_rows _ _ _ _ _ Hrun).
    apply emit_production_rows.
  - intros other Hsorted Hcls.
    apply Grouping.sorted_classes_unique;
      [exact Hsorted | apply Grouping.sort_values_strongly_sorted|].
    intros k. now rewrite Hcls, Grouping.sort_values_stable.
Qed.

(** * Parameters outside their range *)

(** C6, as the code behaves: the builder checks neither parameter.  With a
    changeover time of -60 minutes, or with a line speed of -20 tons per
    hour, it returns the complete schedule of the default table, 8
    Production and 7 Changeover blocks, and no error. *)
Lemma invalid_parameters_accepted :
  (exists sched,
     Clock.calculate_schedule 20 (-60) default_data false = Ok sched /\
     List.length (Clock.rows sched) = 15%nat /\
     Clock.changeover_count (Clock.rows sched) = 7%nat /\
     Clock.production_rows (Clock.rows sched) = default_data) /\
  (exists sched,
     Clock.calculate_schedule (-20) 60 default_data false = Ok sched /\
     List.length (Clock.rows sched) = 15%nat /\
     Clock.production_rows (Clock.rows sched) = default_data).
Proof.
  split; eexists; repeat evaluated; vm_compute; reflexivity.
Qed.

(** C6, amended. The builder has no check of its parameters.  With a line
    speed other than zero it fails by a date out of range only, and it
    does not fail, whatever the sign of the line speed and of the
    changeover time, when the blocks, each taken with the absolute value
    of its length and with one changeover per order, add up to no more
    than the time between 0001-01-01 and the start.  The schedule that it
    returns is complete: one Production block per order, in the working
    order, and one Changeover block per change of colour. *)
Theorem no_parameter_validation
  (line_speed setup_time : Z) (df : list Order) (is_optimized : bool) :
  line_speed <> 0 ->
  (forall e,
     Clock.calculate_schedule line_speed setup_time df is_optimized
     = Raise e ->
     e = OverflowError) /\
  (forall sched,
     Clock.calculate_schedule line_speed setup_time df is_optimized
     = Ok sched ->
     Clock.production_rows (Clock.rows sched) = ordered df is_optimized /\
     Clock.changeover_count (Clock.rows sched)
     = jumps (map color (ordered df is_optimized))) /\
  (Clock.span line_speed setup_time df <= Clock.day_start ->
   exists sched,
     Clock.calculate_schedule line_speed setup_time df is_optimized
     = Ok sched).
Proof.
  intros Hnz. split; [|split].
  - intros e Hrun.
    destruct (ClockFacts.calculate_schedule_failure _ _ _ _ _ Hrun)
      as [(_ & Hz & _)|(He & _)]; [contradiction | exact He].
  - intros sched Hrun.
    destruct (ClockFacts.calculate_schedule_inv _ _ _ _ _ Hrun) as [Hrows _].
    rewrite Hrows. split.
    + apply ClockFacts.clock_emit_production_rows.
    + apply ClockFacts.clock_emit_changeover_count.
  - now apply ClockFacts.calculate_schedule_fits.
Qed.

Lemma no_parameter_validation_witness :
  -20 <> 0 /\
  Clock.span (-20) (-60) default_data <= Clock.day_start /\
  (forall e,
     Clock.calculate_schedule (-20) (-60) default_data true = Raise e ->
     e = OverflowError) /\
  (forall sched,
     Clock.calculate_schedule (-20) (-60) default_data true = Ok sched ->
     Clock.production_rows (Clock.rows sched) = ordered default_data true /\
     Clock.changeover_count (Clock.rows sched)
     = jumps (map color (ordered default_data true))) /\
  (Clock.span (-20) (-60) default_data <= Clock.day_start ->
   exists sched,
     Clock.calculate_schedule (-20) (-60) default_data true = Ok sched).
Proof.
  split; [lia|]. split; [vm_compute; discriminate|].
  apply (no_parameter_validation (-20) (-60) default_data true); lia.
Defined.

(** The default table stays in range at -20 tons per hour and -60
    minutes, and a changeover of -2000000000 minutes leaves it. *)
Lemma default_table_in_and_out_of_range :
  Clock.span (-20) (-60) default_data = 124200000000 /\
  Clock.calculate_schedule 20 (-2000000000) default_data false
  = Raise OverflowError /\
  Clock.calculate_schedule 20 5000000000 default_data false
  = Raise OverflowError.
Proof.
  repeat split; vm_compute; reflexivity.
Qed.

(** When the line speed is zero the division faults at the first order,
    before any block exists. *)
Lemma zero_speed_faults
  (setup_time : Z) (row : Order) (rest : list Order) (is_optimized : bool) :
  calculate_schedule 0 setup_time (row :: rest) is_optimized
  = Raise ZeroDivisionError.
Proof.
  unfold calculate_schedule. fold (ordered (row :: rest) is_optimized).
  destruct (ordered (row :: rest) is_optimized) as [|r l] eqn:Ho.
  - pose proof (ordered_perm (row :: rest) is_optimized) as Hp.
    rewrite Ho in Hp. apply Permutation_nil in Hp. discriminate.
  - now rewrite iterrows_zero_speed.
Qed.

(** * The empty table *)

(** C7, at the empty table: both runs of the builder return the frame of
    an empty list, which has no column, and the first metric then fails on
    the missing column instead of reporting a zero loss. *)
Theorem empty_table_key_error (line_speed setup_time : Z) :
  calculate_schedule line_speed setup_time [] false = Ok (pd_DataFrame []) /\
  calculate_schedule line_speed setup_time [] true = Ok (pd_DataFrame []) /\
  rows (pd_DataFrame []) = [] /\
  columns (pd_DataFrame []) = [] /\
  submission_loss line_speed setup_time [] = Raise (KeyError "작업명") /\
  simulate line_speed setup_time [] = Raise (KeyError "작업명").
Proof.
  repeat split.
Qed.

(** * The metrics *)

(** The loss of the submission-order run exists only for a non-empty table
    and a non-zero line speed. *)
Lemma submission_loss_inv
  (line_speed setup_time : Z) (df : list Order) (la : Z) :
  submission_loss line_speed setup_time df = Ok la ->
  line_speed <> 0 /\ df <> [] /\ la = named_loss setup_time df.
Proof.
  unfold submission_loss. intros Hrun.
  destruct df as [|row rest]; [discriminate|].
  destruct (Z.eq_dec line_speed 0) as [Hz|Hnz].
  - subst line_speed. rewrite zero_speed_faults in Hrun. discriminate.
  - rewrite (calculate_schedule_emit _ _ _ _ Hnz) in Hrun.
    unfold bind, ordered in Hrun.
    rewrite changeover_loss_emit in Hrun by discriminate.
    injection Hrun as <-. repeat split; [exact Hnz | discriminate].
Qed.

Lemma named_loss_zero (setup_time : Z) (df : list Order) :
  named_loss setup_time df = 0 ->
  named_loss setup_time (sort_values df) = 0.
Proof.
  unfold named_loss. intros H.
  rewrite (Counting.filter_length_perm homonym _ _
             (Grouping.sort_values_perm df)).
  pose proof (Counting.jumps_sort_values df) as Hj.
  apply Z.mul_eq_0 in H as [Hc|Hs].
  - replace (jumps (map color (sort_values df))) with 0%nat by lia.
    replace (List.length (filter homonym df)) with 0%nat by lia.
    reflexivity.
  - rewrite Hs. apply Z.mul_0_r.
Qed.

(** C8, at the empty table: the submission-order schedule is empty and its
    total changeover time is 0, yet no efficiency is reported: the run
    stops on the missing column of the empty frame, two lines before the
    guarded division. *)
Theorem efficiency_missing_for_empty_table (line_speed setup_time : Z) :
  exists asis,
    calculate_schedule line_speed setup_time [] false = Ok asis /\
    rows asis = [] /\
    total_changeover setup_time (rows asis) = 0 /\
    submission_loss line_speed setup_time [] = Raise (KeyError "작업명") /\
    simulate line_speed setup_time [] = Raise (KeyError "작업명").
Proof.
  eexists. repeat split.
Qed.









(** * Further facts about the builder *)

(** X1. On Python's clock the builder raises the division fault exactly
    when the line speed is zero and the table has an order: the division
    for the first order comes before any sum of dates.  Its only other
    failure is a date out of range.  Of an empty table it returns the
    frame without rows and without columns, whatever the parameters, and
    the frame that it returns of any other table has rows and the five
    block columns. *)
Theorem builder_outcome
  (line_speed setup_time : Z) (df : list Order) (is_optimized : bool) :
  (Clock.calculate_schedule line_speed setup_time df is_optimized
   = Raise ZeroDivisionError <->
   line_speed = 0 /\ df <> []) /\
  (forall e,
     Clock.calculate_schedule line_speed setup_time df is_optimized
     = Raise e ->
     e = ZeroDivisionError \/ e = OverflowError) /\
  (df = [] ->
   Clock.calculate_schedule line_speed setup_time df is_optimized
   = Ok (Clock.pd_DataFrame [])) /\
  (forall sched,
     Clock.calculate_schedule line_speed setup_time df is_optimized
     = Ok sched ->
     df <> [] ->
     Clock.rows sched <> [] /\ Clock.columns sched = block_columns).
Proof.
  split; [split|split; [|split]].
  - intros Hrun.
    destruct (ClockFacts.calculate_schedule_failure _ _ _ _ _ Hrun)
      as [(_ & Hz & Hne)|(He & _)]; [now split | discriminate].
  - intros [-> Hne]. destruct df as [|row rest]; [contradiction|].
    apply ClockFacts.calculate_schedule_zero_speed.
  - intros e Hrun.
    destruct (ClockFacts.calculate_schedule_failure _ _ _ _ _ Hrun)
      as [(He & _)|(He & _)]; [now left | now right].
  - intros ->. apply ClockFacts.calculate_schedule_empty.
  - intros sched Hrun Hne.
    destruct (ClockFacts.calculate_schedule_inv _ _ _ _ _ Hrun) as [Hrows _].
    assert (Hrows' : Clock.rows sched <> []).
    { rewrite Hrows. intros Hnil.
      pose proof (ClockFacts.clock_emit_production_rows line_speed setup_time
                    (ordered df is_optimized) Clock.day_start None) as Hp.
      rewrite Hnil in Hp. simpl in Hp.
      pose proof (ordered_perm df is_optimized) as Hperm.
      rewrite <- Hp in Hperm. apply Permutation_nil in Hperm.
      contradiction. }
    split; [exact Hrows'|].
    unfold Clock.calculate_schedule in Hrun.
    destruct (Clock.iterrows _ _ _ _) as [st|]; [|discriminate].
    injection Hrun as <-. simpl in *.
    destruct (Clock.schedule_list st); [contradiction | reflexivity].
Qed.

(** Where a Changeover block stands among the blocks that the loop
    appends. *)
Lemma emit_changeover_neighbours
  (line_speed setup_time : Z) (rows : list Order) :
  forall t last pre s e from to post,
    emit line_speed setup_time t last rows
    = (pre ++ Changeover s e from to :: post)%list ->
    from <> to /\
    (exists row e' post',
       post = Production row e e' :: post' /\ color row = to) /\
    match pre with
    | [] => last = Some from /\ s = t
    | _ :: _ =>
        exists pre' prev s0,
          pre = (pre' ++ [Production prev s0 s])%list /\ color prev = from
    end.
Proof.
  induction rows as [|r rest IH]; intros t last pre s e from to post Heq.
  - destruct pre; discriminate.
  - simpl in Heq.
    assert (Hafter : forall t0 t' pre1,
      emit line_speed setup_time t' (Some (color r)) rest
      = (pre1 ++ Changeover s e from to :: post)%list ->
      from <> to /\
      (exists row e' post',
         post = Production row e e' :: post' /\ color row = to) /\
      exists pre' prev s0,
        (Production r t0 t' :: pre1
         = pre' ++ [Production prev s0 s])%list /\ color prev = from).
    { intros t0 t' pre1 Hrest.
      destruct (IH _ _ _ _ _ _ _ _ Hrest) as (Hne & Hnext & Hprev).
      split; [exact Hne|]. split; [exact Hnext|].
      destruct pre1 as [|b1 pre1].
      - destruct Hprev as [[= <-] ->]. now exists [], r, t0.
      - destruct Hprev as (pre' & prev & s0 & -> & Hc).
        now exists (Production r t0 t' :: pre'), prev, s0. }
    destruct last as [c|]; [destruct (String.eqb_spec (color r) c) as [Hc|Hc]|].
    + destruct pre as [|b pre]; [discriminate|].
      injection Heq as <- Heq. eapply Hafter, Heq.
    + destruct pre as [|b pre].
      * injection Heq as <- <- <- <- <-.
        split; [congruence|]. split; [|now split].
        eexists _, _, _. split; reflexivity.
      * injection Heq as <- Heq.
        destruct pre as [|b' pre]; [discriminate|].
        injection Heq as <- Heq.
        destruct (Hafter (t + inject_Z setup_time)%Q _ _ Heq)
          as (Hne & Hnext & pre' & prev & s0 & Hp & Hcp).
        split; [exact Hne|]. split; [exact Hnext|].
        exists (Changeover t (t + inject_Z setup_time)%Q c (color r) :: pre'),
          prev, s0.
        split; [simpl; now rewrite Hp | exact Hcp].
    + destruct pre as [|b pre]; [discriminate|].
      injection Heq as <- Heq. eapply Hafter, Heq.
Qed.



(** * Further facts about changeover accounting *)

Lemma changeover_minutes_cons_production row s e sched :
  changeover_minutes (Production row s e :: sched)
  = changeover_minutes sched.
Proof.
  reflexivity.
Qed.

Lemma emit_changeover_minutes (line_speed setup_time : Z) (rows : list Order) :
  forall t last,
    (changeover_minutes (emit line_speed setup_time t last rows)
     == inject_Z
          (total_changeover setup_time
             (emit line_speed setup_time t last rows)))%Q.
Proof.
  unfold total_changeover, changeover_count.
  induction rows as [|r rest IH]; intros t last; [reflexivity|].
  simpl emit.
  destruct last as [c|]; [destruct (String.eqb (color r) c)|].
  - rewrite changeover_minutes_cons_production. apply IH.
  - unfold changeover_minutes. simpl filter. simpl map. simpl fold_right.
    fold (changeover_minutes
            (emit line_speed setup_time
               (t + inject_Z setup_time
                + quantity r / inject_Z line_speed * 60)%Q
               (Some (color r)) rest)).
    rewrite IH. simpl List.length.
    rewrite Nat2Z.inj_succ, Z.mul_succ_l, inject_Z_plus.
    unfold duration. simpl. ring.
  - rewrite changeover_minutes_cons_production. apply IH.
Qed.

Lemma named_loss_split (setup_time : Z) (rows : list Order) :
  named_loss setup_time rows
  = Z.of_nat (jumps (map color rows)) * setup_time
    + Z.of_nat (List.length (filter homonym rows)) * setup_time.
Proof.
  unfold named_loss. rewrite Nat2Z.inj_add. ring.
Qed.



Lemma jumps_zero_iff (cs : list string) :
  jumps cs = 0%nat <-> (forall a b, In a cs -> In b cs -> a = b).
Proof.
  induction cs as [|a tl IH].
  - split; [intros _ x y [] | reflexivity].
  - destruct tl as [|b rest].
    + split; [|reflexivity].
      intros _ x y [<-|[]] [<-|[]]. reflexivity.
    + change (jumps (a :: b :: rest))
        with ((if String.eqb b a then 0 else 1) + jumps (b :: rest))%nat.
      split.
      * intros Hz. destruct (String.eqb_spec b a) as [->|Hne];
          [|discriminate].
        simpl in Hz. destruct IH as [IH _]. specialize (IH Hz).
        assert (Hall : forall x, In x (a :: a :: rest) -> x = a).
        { intros x [<-|Hin]; [reflexivity|]. apply IH; [exact Hin | now left]. }
        intros x y Hx Hy. rewrite (Hall x Hx), (Hall y Hy). reflexivity.
      * intros Hall.
        assert (Hba : b = a) by (apply Hall; [right; now left | now left]).
        subst b. rewrite String.eqb_refl. simpl.
        apply IH. intros x y Hx Hy. apply Hall; now right.
Qed.



Lemma jumps_bound (cs : list string) :
  (jumps cs <= pred (List.length cs))%nat.
Proof.
  induction cs as [|a tl IH]; [simpl; lia|].
  destruct tl as [|b rest]; [simpl; lia|].
  change (jumps (a :: b :: rest))
    with ((if String.eqb b a then 0 else 1) + jumps (b :: rest))%nat.
  simpl List.length in *. destruct (String.eqb b a); simpl in *; lia.
Qed.



(** * Further facts about line time *)

Lemma production_total_perm (line_speed : Z) (l l' : list Order) :
  Permutation l l' ->
  (production_total line_speed l == production_total line_speed l')%Q.
Proof.
  unfold production_total.
  induction 1 as [|x l l' _ IH|x y l|l l' l'' _ IH1 _ IH2]; simpl.
  - reflexivity.
  - now rewrite IH.
  - ring.
  - now rewrite IH1.
Qed.

(** Where the cursor stands after the loop has run over [rows]. *)
Lemma emit_last_finish (line_speed setup_time : Z) (rows : list Order) :
  forall t last,
    rows <> [] ->
    exists b,
      last_opt (emit line_speed setup_time t last rows) = Some b /\
      (finish b
       == t + production_total line_speed rows
          + inject_Z
              (total_changeover setup_time
                 (emit line_speed setup_time t last rows)))%Q.
Proof.
  unfold total_changeover, changeover_count.
  induction rows as [|r rest IH]; intros t last Hne; [contradiction|].
  assert (Hprod : forall s,
    exists b,
      last_opt
        (Production r s (s + quantity r / inject_Z line_speed * 60)%Q
         :: emit line_speed setup_time
              (s + quantity r / inject_Z line_speed * 60)%Q
              (Some (color r)) rest) = Some b /\
      (finish b
       == s + production_total line_speed (r :: rest)
          + inject_Z
              (Z.of_nat
                 (List.length
                    (filter is_changeover_block
                       (emit line_speed setup_time
                          (s + quantity r / inject_Z line_speed * 60)%Q
                          (Some (color r)) rest)))
               * setup_time))%Q).
  { intros s. destruct rest as [|r' rest'].
    - eexists. split; [reflexivity|].
      unfold production_total. simpl. ring.
    - destruct (IH (s + quantity r / inject_Z line_speed * 60)%Q
                  (Some (color r)) ltac:(discriminate))
        as (b & Hlast & Hfin).
      exists b. split; [now apply last_opt_cons_some|].
      rewrite Hfin. unfold production_total. simpl. ring. }
  simpl emit.
  destruct last as [c|]; [destruct (String.eqb (color r) c)|].
  - apply Hprod.
  - destruct (Hprod (t + inject_Z setup_time)%Q) as (b & Hlast & Hfin).
    exists b. split; [now apply last_opt_cons_some|].
    rewrite Hfin. simpl filter. simpl List.length.
    rewrite Nat2Z.inj_succ, Z.mul_succ_l, inject_Z_plus. ring.
  - apply Hprod.
Qed.







Lemma chained_after (sched : list Block) :
  forall t,
    chained t sched ->
    (forall b, In b sched -> (start b <= finish b)%Q) ->
    forall b, In b sched -> (t <= start b)%Q.
Proof.
  induction sched as [|b0 rest IH]; intros t Hch Hdur b Hin; [contradiction|].
  destruct Hch as [Hst Hrest]. destruct Hin as [<-|Hin].
  - rewrite Hst. apply Qle_refl.
  - apply Qle_trans with (finish b0).
    + rewrite <- Hst. apply Hdur. now left.
    + apply (IH _ Hrest); [|exact Hin].
      intros b' Hb'. apply Hdur. now right.
Qed.

Lemma chained_ordered (sched : list Block) :
  forall t,
    chained t sched ->
    (forall b, In b sched -> (start b <= finish b)%Q) ->
    forall i j bi bj,
      (i < j)%nat ->
      nth_error sched i = Some bi ->
      nth_error sched j = Some bj ->
      (finish bi <= start bj)%Q.
Proof.
  induction sched as [|b0 rest IH]; intros t Hch Hdur i j bi bj Hij Hi Hj.
  - destruct i; discriminate.
  - destruct Hch as [_ Hrest].
    assert (Hdur' : forall b, In b rest -> (start b <= finish b)%Q)
      by (intros b Hb; apply Hdur; now right).
    destruct j as [|j]; [lia|]. simpl in Hj.
    destruct i as [|i]; simpl in Hi.
    + injection Hi as <-.
      apply (chained_after rest _ Hrest Hdur').
      eapply nth_error_In, Hj.
    + apply (IH _ Hrest Hdur' i j); [lia | exact Hi | exact Hj].
Qed.


Lemma default_quantities_nonneg :
  forall row, In row default_data -> (0 <= quantity row)%Q.
Proof.
  intros row Hin. simpl in Hin.
  repeat (destruct Hin as [<-|Hin]; [discriminate|]). contradiction.
Defined.


(** * Further facts about the metrics *)

Lemma named_loss_nonneg (setup_time : Z) (rows : list Order) :
  0 <= setup_time -> 0 <= named_loss setup_time rows.
Proof.
  intros Hs. unfold named_loss. apply Z.mul_nonneg_nonneg; lia.
Qed.





(** * Further facts about the loop *)

(** The loop over two tables in a row resumes, for the second, from the
    cursor and the colour that the first leaves behind. *)
Lemma emit_app (line_speed setup_time : Z) (l1 l2 : list Order) :
  forall t last,
    exists t' last',
      emit line_speed setup_time t last (l1 ++ l2)
      = (emit line_speed setup_time t last l1
         ++ emit line_speed setup_time t' last' l2)%list /\
      last' = match last_opt l1 with
              | Some row => Some (color row)
              | None => last
              end.
Proof.
  induction l1 as [|r rest IH]; intros t last.
  - exists t, last. split; reflexivity.
  - assert (Hlast : forall last0,
      match last_opt rest with
      | Some row => Some (color row)
      | None => Some (color r)
      end
      = match last_opt (r :: rest) with
        | Some row => Some (color row)
        | None => last0
        end).
    { intros last0. simpl. destruct (last_opt rest); reflexivity. }
    simpl app. simpl emit.
    destruct last as [c|]; [destruct (String.eqb (color r) c)|].
    + destruct (IH (t + quantity r / inject_Z line_speed * 60)%Q
                  (Some (color r))) as (t' & last' & Heq & Hl).
      exists t', last'. rewrite Heq. split; [reflexivity|].
      now rewrite Hl, (Hlast (Some c)).
    + destruct (IH (t + inject_Z setup_time
                    + quantity r / inject_Z line_speed * 60)%Q
                  (Some (color r))) as (t' & last' & Heq & Hl).
      exists t', last'. rewrite Heq. split; [reflexivity|].
      now rewrite Hl, (Hlast (Some c)).
    + destruct (IH (t + quantity r / inject_Z line_speed * 60)%Q
                  (Some (color r))) as (t' & last' & Heq & Hl).
      exists t', last'. rewrite Heq. split; [reflexivity|].
      now rewrite Hl, (Hlast None).
Qed.



(** * Further facts about the grouped order *)

Lemma strongly_sorted_after (a : Order) (l1 rest : list Order) :
  StronglySorted key_order (l1 ++ a :: rest) ->
  Forall (key_order a) rest.
Proof.
  induction l1 as [|x l1 IH]; simpl; intros Hs.
  - now apply StronglySorted_inv in Hs.
  - apply IH. now apply StronglySorted_inv in Hs.
Qed.

Lemma key_order_same_color (a b c : Order) :
  key_order a b -> key_order b c -> color a = color c ->
  color b = color a.
Proof.
  unfold key_order, key_le. intros Hab Hbc Hac. rewrite <- Hac in Hbc.
  pose proof (String.compare_antisym (color b) (color a)) as Hanti.
  destruct (String.compare (color a) (color b)) eqn:Hc; try discriminate.
  - symmetry. now apply String.compare_eq_iff.
  - rewrite Hanti in Hbc. discriminate.
Qed.


